(** * gom: the fetch / pin / build pipeline of [install.go]

    A shallow embedding of [install.go] and the properties of its
    version-control fallback, its fetch engine, its revision pinner and its
    orchestrator.

    The program is a sequence of system calls and external processes, so the
    embedding threads an explicit [World] (working directory, directory tree,
    environment, trace of what was printed and run) through every function.
    What the processes do and which system calls are refused is not decided
    by the program: it is given by oracles, the variables of the section
    [Program]. *)

From Stdlib Require Import String Ascii List Bool Arith Lia.
From stdpp Require Import base option gmap strings.
Import ListNotations.

Local Open Scope string_scope.
Local Open Scope list_scope.

(** ** Strings: the parts of Go's [strings] and [fmt] the program uses *)

(** [strings.Split(s, sep)] for a separator of one byte: the pieces between
    the occurrences of [sep]; [n] occurrences give [n + 1] pieces, some of
    them possibly empty. *)
Fixpoint strings_Split (s : string) (sep : ascii) : list string :=
  match s with
  | EmptyString => [EmptyString]
  | String c s' =>
      if Ascii.eqb c sep then EmptyString :: strings_Split s' sep
      else match strings_Split s' sep with
           | [] => [String c EmptyString]
           | piece :: pieces => String c piece :: pieces
           end
  end.

(** [strings.Join(elems, sep)]. *)
Fixpoint strings_Join (elems : list string) (sep : string) : string :=
  match elems with
  | [] => EmptyString
  | [e] => e
  | e :: rest => e +:+ sep +:+ strings_Join rest sep
  end.

Definition lower_ascii (c : ascii) : ascii :=
  let n := nat_of_ascii c in
  if ((65 <=? n) && (n <=? 90))%nat then ascii_of_nat (n + 32) else c.

(** [strings.ToLower] on the bytes of the string. Go also lowers the letters
    outside ASCII; none of them lowers to a letter of the vocabulary of
    [boolString], so the two agree on what [boolString] answers. *)
Fixpoint strings_ToLower (s : string) : string :=
  match s with
  | EmptyString => EmptyString
  | String c s' => String (lower_ascii c) (strings_ToLower s')
  end.

(** [%v] of a [[]string]. *)
Definition fmt_strings (l : list string) : string :=
  "[" +:+ strings_Join l " " +:+ "]".

Definition newline : string := String (ascii_of_nat 10) EmptyString.




(** ** Paths: the parts of Go's [path/filepath] the program uses (Unix) *)

Definition slash : ascii := "/"%char.

Definition filepath_IsAbs (p : string) : bool :=
  match p with
  | String c _ => Ascii.eqb c slash
  | EmptyString => false
  end.

(** One element of the path in [filepath.Clean]. [out] holds the elements
    kept so far, the last one first, and [dotdot] counts the [..] elements at
    the start of the result, which nothing can remove. *)
Definition clean_step (rooted : bool) (st : list string * nat) (elem : string)
  : list string * nat :=
  let '(out, dotdot) := st in
  if String.eqb elem "" then st
  else if String.eqb elem "." then st
  else if String.eqb elem ".." then
    if (dotdot <? length out)%nat then (tl out, dotdot)
    else if rooted then st
    else (".." :: out, S dotdot)
  else (elem :: out, dotdot).

(** The elements of the cleaned path, in order. *)
Definition clean_elems (p : string) : list string :=
  rev (fst (fold_left (clean_step (filepath_IsAbs p)) (strings_Split p slash) ([], 0))).

(** [filepath.Clean]. *)
Definition filepath_Clean (p : string) : string :=
  if String.eqb p "" then "."
  else
    let body := strings_Join (clean_elems p) "/" in
    if filepath_IsAbs p then "/" +:+ body
    else if String.eqb body "" then "." else body.

(** [filepath.Join]: the elements from the first one that is not empty on,
    joined with slashes and cleaned; the empty string when all are empty. *)
Fixpoint filepath_Join (elem : list string) : string :=
  match elem with
  | [] => ""
  | e :: rest =>
      if String.eqb e "" then filepath_Join rest
      else filepath_Clean (strings_Join (e :: rest) "/")
  end.

(** ** The data model *)

(** A value of an option of the manifest, an [interface{}] in the program:
    a string, a list of strings or a boolean. *)
Inductive value : Type :=
| VString (s : string)
| VStrings (l : list string)
| VBool (b : bool).

(** [Gom], one dependency: its name and its options. *)
Record Gom : Type := mkGom {
  name : string;
  options : gmap string value
}.

(** What [has] can be given: an [interface{}] that is a map of options, a
    list of strings, or anything else. *)
Inductive container : Type :=
| CMap (m : gmap string value)
| CStrings (a : list string)
| COther.

Definition has (c : container) (key : string) : bool :=
  match c with
  | CMap m => match m !! key with Some _ => true | None => false end
  | CStrings a => existsb (fun s => true && String.eqb s key) a
  | COther => false
  end.

(** [v, ok := m[key].(string)]. *)
Definition string_at (m : gmap string value) (key : string) : option string :=
  match m !! key with
  | Some (VString s) => Some s
  | _ => None
  end.

(** [v, _ = m[key].(string)]: the empty string when the assertion fails. *)
Definition string_or_empty (m : gmap string value) (key : string) : string :=
  match string_at m key with
  | Some s => s
  | None => ""
  end.

Definition getTarget (gom : Gom) : string :=
  match string_at (options gom) "target" with
  | Some target => target
  | None => name gom
  end.

(** [getFork] asserts the type of the [fork] option without the comma-ok
    form: [None] is the panic of that assertion. *)
Definition getFork (gom : Gom) : option string :=
  if has (CMap (options gom)) "fork" then string_at (options gom) "fork"
  else Some (getTarget gom).

Definition boolString : gmap string bool :=
  list_to_map
    [("t", true); ("true", true); ("y", true); ("yes", true); ("on", true);
     ("1", true);
     ("f", false); ("false", false); ("n", false); ("no", false);
     ("off", false); ("0", false)].

(** [boolString[s]]: [false] for a string that is not a key. *)
Definition boolString_at (s : string) : bool :=
  match boolString !! s with
  | Some b => b
  | None => false
  end.

(** The revision that [Gom.Checkout] selects, its first twelve lines. *)
Definition commit_or_branch_or_tag (gom : Gom) : string :=
  let opts := options gom in
  let sel := "" in
  let sel := if has (CMap opts) "branch" then string_or_empty opts "branch" else sel in
  let sel := if has (CMap opts) "tag" then string_or_empty opts "tag" else sel in
  let sel := if has (CMap opts) "commit" then string_or_empty opts "commit" else sel in
  sel.

Record vcsCmd : Type := mkVcs {
  checkout : list string;
  update : list string
}.

Definition hg : vcsCmd := mkVcs ["hg"; "update"] ["hg"; "pull"].
Definition git : vcsCmd := mkVcs ["git"; "checkout"; "-q"] ["git"; "fetch"].
Definition bzr : vcsCmd := mkVcs ["bzr"; "revert"; "-r"] ["bzr"; "pull"].

(** ** The world the program runs in *)

Inductive errno : Type := ENOENT | EEXIST | ENOTDIR | EACCES | EIO.

(** Go's [error] values: the ones made by [errors.New], the ones of the
    system calls and the ones of a process that could not be run or failed. *)
Inductive error : Type :=
| ErrorString (msg : string)
| PathError (op path : string) (e : errno)
| ExitError (msg : string).

(** [os.IsExist]. *)
Definition os_IsExist (err : error) : bool :=
  match err with
  | PathError _ _ EEXIST => true
  | _ => false
  end.

Inductive node : Type := Dir | File (content : string).

(** The tree of files: what is found at a path, given by its elements from
    the root. *)
Definition FS : Type := list string -> option node.

(** The calls of [vcsCmd.Checkout] and [vcsCmd.Update]; they are recorded in
    the trace only to count them. *)
Inductive call : Type :=
| CallCheckout (vcs : vcsCmd) (p destination : string)
| CallUpdate (vcs : vcsCmd) (p : string).

Inductive event : Type :=
| EvPrint (text : string)
| EvRun (dir : string) (argv : list string)
| EvCall (c : call).

Record World : Type := mkWorld {
  cwd : string;
  fs : FS;
  environ : list (string * string);
  trace : list event
}.

Definition set_cwd (d : string) (w : World) : World :=
  mkWorld d (fs w) (environ w) (trace w).
Definition set_fs (f : FS) (w : World) : World :=
  mkWorld (cwd w) f (environ w) (trace w).
Definition set_environ (e : list (string * string)) (w : World) : World :=
  mkWorld (cwd w) (fs w) e (trace w).
Definition log (e : event) (w : World) : World :=
  mkWorld (cwd w) (fs w) (environ w) (trace w ++ [e]).

(** The system calls the program makes. *)
Inductive sysop : Type :=
| SysGetwd
| SysChdir (dir : string)
| SysStat (p : string)
| SysMkdirAll (p : string)
| SysSetenv (key val : string)
| SysCopyDir (dst src : string)
| SysRemoveAll (p : string).

(** A computation either returns a value or panics, in a new world. *)
Inductive Res (A : Type) : Type :=
| Done (a : A) (w : World)
| Panic (msg : string) (w : World).
Arguments Done {A} a w.
Arguments Panic {A} msg w.

Definition M (A : Type) : Type := World -> Res A.

Definition ret {A : Type} (a : A) : M A := fun w => Done a w.

Definition bind {A B : Type} (m : M A) (k : A -> M B) : M B :=
  fun w =>
    match m w with
    | Done a w' => k a w'
    | Panic msg w' => Panic msg w'
    end.

Definition panic {A : Type} (msg : string) : M A := fun w => Panic msg w.

Declare Scope go_scope.
Delimit Scope go_scope with go.
Notation "x <- m ;; k" := (bind m (fun x => k))
  (at level 100, m at next level, right associativity) : go_scope.
Notation "m ;;; k" := (bind m (fun _ => k))
  (at level 100, right associativity) : go_scope.

(** The world a computation ends in. *)
Definition world_of {A : Type} (r : Res A) : World :=
  match r with
  | Done _ w => w
  | Panic _ w => w
  end.

(** The path of the tree that a path string names in a world. *)
Definition resolve (w : World) (p : string) : string :=
  if filepath_IsAbs p then p else filepath_Join [cwd w; p].

Definition lookup_path (w : World) (p : string) : option node :=
  fs w (clean_elems (resolve w p)).

Definition is_dir (w : World) (p : string) : bool :=
  match lookup_path w p with
  | Some Dir => true
  | _ => false
  end.

(** [l] starts with [pre]: what is left of [l] after [pre]. *)
Fixpoint strip_prefix (pre l : list string) : option (list string) :=
  match pre, l with
  | [], _ => Some l
  | x :: pre', y :: l' => if String.eqb x y then strip_prefix pre' l' else None
  | _ :: _, [] => None
  end.

Definition under (pre l : list string) : bool :=
  match strip_prefix pre l with
  | Some _ => true
  | None => false
  end.

Fixpoint prefixes (l : list string) : list (list string) :=
  match l with
  | [] => [[]]
  | x :: l' => [] :: map (cons x) (prefixes l')
  end.

(** What the program takes from outside [install.go]: the behaviour of the
    processes it starts and of the system it runs on, the parser of the
    manifest, the two predicates of the filter and the name of the
    workspace. *)
Record Env : Type := mkEnv {
  (** what a process started with this argv does to the tree of files, and
      the error of [cmd.Run] *)
  process : list string -> World -> FS * option error;
  (** the system calls that fail for a reason the tree of files does not
      show (rights, devices), and their error *)
  refused : sysop -> World -> option error;
  parseGomfile : string -> World -> list Gom + error;
  matchEnv : value -> bool;
  matchOS : value -> bool;
  vendorFolder : string
}.

Section Program.

Variable E : Env.

Local Open Scope go_scope.

(** *** System calls *)

Definition fmt_Printf (text : string) : M unit :=
  fun w => Done tt (log (EvPrint text) w).

Definition os_Getwd : M (string + error) :=
  fun w =>
    match refused E SysGetwd w with
    | Some err => Done (inr err) w
    | None =>
        if is_dir w (cwd w) then Done (inl (cwd w)) w
        else Done (inr (PathError "getwd" "" ENOENT)) w
    end.

Definition os_Chdir (dir : string) : M (option error) :=
  fun w =>
    match refused E (SysChdir dir) w with
    | Some err => Done (Some err) w
    | None =>
        match lookup_path w dir with
        | Some Dir => Done None (set_cwd (resolve w dir) w)
        | Some (File _) => Done (Some (PathError "chdir" dir ENOTDIR)) w
        | None => Done (Some (PathError "chdir" dir ENOENT)) w
        end
    end.

Definition os_Stat (p : string) : M (node + error) :=
  fun w =>
    match refused E (SysStat p) w with
    | Some err => Done (inr err) w
    | None =>
        match lookup_path w p with
        | Some n => Done (inl n) w
        | None => Done (inr (PathError "stat" p ENOENT)) w
        end
    end.

Definition is_file_node (o : option node) : bool :=
  match o with
  | Some (File _) => true
  | _ => false
  end.

Definition os_MkdirAll (p : string) : M (option error) :=
  fun w =>
    match refused E (SysMkdirAll p) w with
    | Some err => Done (Some err) w
    | None =>
        let elems := clean_elems (resolve w p) in
        if existsb (fun q => is_file_node (fs w q)) (prefixes elems)
        then Done (Some (PathError "mkdir" p ENOTDIR)) w
        else
          Done None
            (set_fs (fun q => match fs w q with
                              | Some n => Some n
                              | None => if under q elems then Some Dir else None
                              end) w)
    end.

Definition os_Setenv (key val : string) : M (option error) :=
  fun w =>
    match refused E (SysSetenv key val) w with
    | Some err => Done (Some err) w
    | None => Done None (set_environ ((key, val) :: environ w) w)
    end.

(** [os.RemoveAll]: the path and all that is under it is gone; no error for
    a path that does not exist. *)
Definition os_RemoveAll (p : string) : M (option error) :=
  fun w =>
    match refused E (SysRemoveAll p) w with
    | Some err => Done (Some err) w
    | None =>
        let elems := clean_elems (resolve w p) in
        Done None (set_fs (fun q => if under elems q then None else fs w q) w)
    end.

(** Modelled from the spec: [mustCopyDir], the recursive copy of a directory,
    is defined outside [install.go]; the specification takes it as a
    primitive, the full recursive copy of [src] to [dst], which can fail.
    Here every path under [src] is found under [dst] with what it holds, the
    rest of the tree is kept, and the copy fails when [src] is not a
    directory. *)
Definition mustCopyDir (dst src : string) : M (option error) :=
  fun w =>
    match refused E (SysCopyDir dst src) w with
    | Some err => Done (Some err) w
    | None =>
        let d := clean_elems (resolve w dst) in
        let s := clean_elems (resolve w src) in
        match fs w s with
        | Some Dir =>
            Done None
              (set_fs (fun q => match strip_prefix d q with
                                | Some rel => match fs w (s ++ rel) with
                                              | Some n => Some n
                                              | None => fs w q
                                              end
                                | None => fs w q
                                end) w)
        | Some (File _) => Done (Some (PathError "copy" src ENOTDIR)) w
        | None => Done (Some (PathError "copy" src ENOENT)) w
        end
    end.

(** [exec.Command(argv[0], argv[1:]...).Run()]: the process runs in the
    working directory of the program and cannot change it. *)
Definition exec_Run (argv : list string) : M (option error) :=
  fun w =>
    let '(tree, err) := process E argv w in
    Done err (log (EvRun (cwd w) argv) (set_fs tree w)).

(** Modelled from the spec: [run] is defined outside [install.go]; the
    specification has it as the external invocation of the given argv (the
    colour is only for the console). *)
Definition run (args : list string) : M (option error) := exec_Run args.

(** [defer d] around [body]: [d] runs when [body] returns and when it
    panics, and what it returns is dropped. *)
Definition with_defer {A B : Type} (d : M B) (body : M A) : M A :=
  fun w =>
    match body w with
    | Done a w' =>
        match d w' with
        | Done _ w'' => Done a w''
        | Panic msg w'' => Panic msg w''
        end
    | Panic msg w' =>
        match d w' with
        | Done _ w'' => Panic msg w''
        | Panic msg' w'' => Panic msg' w''
        end
    end.

Definition filepath_Abs (p : string) : M (string + error) :=
  if filepath_IsAbs p then ret (inl (filepath_Clean p))
  else
    r <- os_Getwd ;;
    match r with
    | inr err => ret (inr err)
    | inl wd => ret (inl (filepath_Join [wd; p]))
    end.

Definition isDir (p : string) : M bool :=
  r <- os_Stat (filepath_Join [p]) ;;
  match r with
  | inl Dir => ret true
  | _ => ret false
  end.

Definition isFile (p : string) : M bool :=
  r <- os_Stat (filepath_Join [p]) ;;
  match r with
  | inl (File _) => ret true
  | _ => ret false
  end.

(** *** The version-control commands *)

Definition vcsExec (dir : string) (args : list string) : M (option error) :=
  r <- os_Getwd ;;
  match r with
  | inr err => ret (Some err)
  | inl cwd0 =>
      err <- os_Chdir dir ;;
      match err with
      | Some err => ret (Some err)
      | None =>
          with_defer (os_Chdir cwd0)
            match args with
            | [] => panic "index out of range"
            | _ :: _ => exec_Run args
            end
      end
  end.

Definition vcs_Checkout (vcs : vcsCmd) (p destination : string) : M (option error) :=
  fun w =>
    let args := checkout vcs ++ [destination] in
    vcsExec p args (log (EvCall (CallCheckout vcs p destination)) w).

Definition vcs_Update (vcs : vcsCmd) (p : string) : M (option error) :=
  fun w => vcsExec p (update vcs) (log (EvCall (CallUpdate vcs p)) w).

Definition vcs_Sync (vcs : vcsCmd) (p destination : string) : M (option error) :=
  err <- vcs_Checkout vcs p destination ;;
  match err with
  | Some _ =>
      err <- vcs_Update vcs p ;;
      match err with
      | Some err => ret (Some err)
      | None => vcs_Checkout vcs p destination
      end
  | None => ret None
  end.

(** *** The fetch engine *)

Definition Gom_pullPrivate (gom : Gom) (srcdir : string) : M (option error) :=
  fmt_Printf ("fetching private repo " +:+ name gom +:+ newline) ;;;
  let pullCmd :=
    "git --work-tree=" +:+ srcdir +:+ ", --git-dir=" +:+ srcdir
      +:+ "/.git pull origin" in
  let pullArgs := strings_Split pullCmd " " in
  run pullArgs.

(** The URL of [clonePrivate]; [None] is the panic of an index out of
    range. *)
Definition privateUrl (gom : Gom) (useHttps : bool) : option string :=
  if useHttps then Some ("https://" +:+ name gom +:+ ".git")
  else
    match strings_Split (name gom) "/" with
    | n0 :: n1 :: n2 :: _ => Some ("git@" +:+ n0 +:+ ":" +:+ n1 +:+ "/" +:+ n2)
    | _ => None
    end.

Definition Gom_clonePrivate (gom : Gom) (srcdir : string) (useHttps : bool)
  : M (option error) :=
  match privateUrl gom useHttps with
  | None => panic "index out of range"
  | Some url =>
      fmt_Printf ("fetching private repo " +:+ name gom +:+ newline) ;;;
      let cloneCmd := ["git"; "clone"; url; srcdir] in
      run cloneCmd
  end.

(** [useHttps] in [Clone]: [false], unless the [https] option is a string
    that [boolString] maps to [true]. *)
Definition https_option (gom : Gom) : bool :=
  match string_at (options gom) "https" with
  | Some possible => boolString_at (strings_ToLower possible)
  | None => false
  end.

(** The first part of [Clone], up to the default fetch: the command of the
    dependency or the private repository. [Some err] is an early return. *)
Definition Clone_custom (gom : Gom) (vendor name : string) : M (option error) :=
  match string_at (options gom) "command" with
  | Some command =>
      let srcdir := filepath_Join [vendor; "src"; name] in
      let customCmd := strings_Split command " " in
      let customCmd := customCmd ++ [srcdir] in
      fmt_Printf ("fetching " +:+ name +:+ " (" +:+ fmt_strings customCmd
                    +:+ ")" +:+ newline) ;;;
      run customCmd
  | None =>
      match string_at (options gom) "private" with
      | Some private =>
          if boolString_at (strings_ToLower private) then
            let srcdir := filepath_Join [vendor; "src"; name] in
            r <- os_Stat srcdir ;;
            match r with
            | inr err =>
                if os_IsExist err then
                  fmt_Printf ("pulling private " +:+ name +:+ newline) ;;;
                  Gom_pullPrivate gom srcdir
                else
                  let useHttps := https_option gom in
                  fmt_Printf ("cloning private " +:+ name +:+ newline) ;;;
                  Gom_clonePrivate gom srcdir useHttps
            | inl _ => ret None
            end
          else ret None
      | None => ret None
      end
  end.

(** The argv of the default fetch. *)
Definition default_fetch (args : list string) (name : string) : list string :=
  (["go"; "get"; "-d"] ++ args) ++ [name].

(** The last part of [Clone]: the move from the fork to the target. *)
Definition Clone_fork (gom : Gom) (vendor name : string) (result : option error)
  : M (option error) :=
  if has (CMap (options gom)) "fork" then
    let tag := getTarget gom in
    match getFork gom with
    | None => panic "interface conversion"
    | Some fork =>
        let src := filepath_Join [vendor; "src"; fork] in
        let dst := filepath_Join [vendor; "src"; tag] in
        fmt_Printf ("forking (" +:+ name +:+ ", " +:+ tag +:+ ")" +:+ newline) ;;;
        err <- mustCopyDir dst src ;;
        match err with
        | Some err => ret (Some err)
        | None =>
            err <- os_RemoveAll src ;;
            match err with
            | Some err => ret (Some err)
            | None => ret result
            end
        end
    end
  else ret result.

(** The middle part of [Clone]: the default fetch, and then the move. *)
Definition Clone_default (gom : Gom) (args : list string) (vendor name : string)
  : M (option error) :=
  let cmdArgs := default_fetch args name in
  fmt_Printf ("downloading " +:+ name +:+ newline) ;;;
  result <- run cmdArgs ;;
  Clone_fork gom vendor name result.

Definition Gom_Clone (gom : Gom) (args : list string) : M (option error) :=
  r <- filepath_Abs (vendorFolder E) ;;
  match r with
  | inr err => ret (Some err)
  | inl vendor =>
      match getFork gom with
      | None => panic "interface conversion"
      | Some name =>
          err <- Clone_custom gom vendor name ;;
          match err with
          | Some err => ret (Some err)
          | None => Clone_default gom args vendor name
          end
      end
  end.

(** *** The revision pinner *)

Definition unsupported_vcs : error :=
  ErrorString "gom currently support git/hg/bzr for specifying tag/branch/commit".

(** The probes of one step of the walk: [.git], then [.hg], then [.bzr]. *)
Definition probe (p : string) : M (option vcsCmd) :=
  g <- isDir (filepath_Join [p; ".git"]) ;;
  if g then ret (Some git)
  else
    h <- isDir (filepath_Join [p; ".hg"]) ;;
    if h then ret (Some hg)
    else
      b <- isDir (filepath_Join [p; ".bzr"]) ;;
      if b then ret (Some bzr) else ret None.

(** The loop of [Checkout] over the elements of the name, and what follows
    it. *)
Fixpoint Checkout_walk (gom : Gom) (vendor sel p : string) (elems : list string)
  : M (option error) :=
  match elems with
  | [] =>
      fmt_Printf ("Warning: don't know how to checkout for " +:+ name gom
                    +:+ newline) ;;;
      ret (Some unsupported_vcs)
  | elem :: rest =>
      let p := filepath_Join [p; elem] in
      found <- probe p ;;
      match found with
      | Some vcs =>
          let p := filepath_Join [vendor; "src"; name gom] in
          vcs_Sync vcs p sel
      | None => Checkout_walk gom vendor sel p rest
      end
  end.

Definition Gom_Checkout (gom : Gom) : M (option error) :=
  let sel := commit_or_branch_or_tag gom in
  if String.eqb sel "" then ret None
  else
    r <- filepath_Abs (vendorFolder E) ;;
    match r with
    | inr err => ret (Some err)
    | inl vendor =>
        let p := filepath_Join [vendor; "src"] in
        Checkout_walk gom vendor sel p (strings_Split (name gom) "/")
    end.

(** *** The build *)

Definition Gom_Build (gom : Gom) (args : list string) : M (option error) :=
  let installCmd := ["go"; "install"] ++ args in
  r <- filepath_Abs (vendorFolder E) ;;
  match r with
  | inr err => ret (Some err)
  | inl vendor =>
      let p := filepath_Join [vendor; "src"; name gom] in
      vcsExec p installCmd
  end.

(** *** The orchestrator *)

(** One turn of the loop that filters: [goms] with [gom] appended, or
    [goms] as it is when a [continue] is taken. *)
Definition filter_step (goms : list Gom) (gom : Gom) : list Gom :=
  let group_ok :=
    match options gom !! "group" with
    | Some group => matchEnv E group
    | None => true
    end in
  if negb group_ok then goms
  else
    let goos_ok :=
      match options gom !! "goos" with
      | Some goos => matchOS E goos
      | None => true
      end in
    if negb goos_ok then goms
    else goms ++ [gom].

Definition filter_goms (allGoms : list Gom) : list Gom :=
  fold_left filter_step allGoms [].

(** A loop over the dependencies that returns at the first error. *)
Fixpoint for_each (f : Gom -> M (option error)) (goms : list Gom)
  : M (option error) :=
  match goms with
  | [] => ret None
  | gom :: rest =>
      err <- f gom ;;
      match err with
      | Some err => ret (Some err)
      | None => for_each f rest
      end
  end.

(** The three phases of [install] on the dependencies that are kept. *)
Definition phases (args : list string) (goms : list Gom) : M (option error) :=
  err <- for_each (fun gom => Gom_Clone gom args) goms ;;
  match err with
  | Some err => ret (Some err)
  | None =>
      err <- for_each Gom_Checkout goms ;;
      match err with
      | Some err => ret (Some err)
      | None => for_each (fun gom => Gom_Build gom args) goms
      end
  end.

(** What [install] does before the filter: the manifest, the workspace and
    [GOPATH]. [inr err] is an early return. *)
Definition setup : M (list Gom + error) :=
  fun w =>
    match parseGomfile E "Gomfile" w with
    | inr err => Done (inr err) w
    | inl allGoms =>
        (r <- filepath_Abs (vendorFolder E) ;;
         match r with
         | inr err => ret (inr err)
         | inl vendor =>
             st <- os_Stat vendor ;;
             err <- match st with
                    | inr _ => os_MkdirAll vendor
                    | inl _ => ret None
                    end ;;
             match err with
             | Some err => ret (inr err)
             | None =>
                 err <- os_Setenv "GOPATH" vendor ;;
                 match err with
                 | Some err => ret (inr err)
                 | None => ret (inl allGoms)
                 end
             end
         end) w
    end.

Definition install (args : list string) : M (option error) :=
  r <- setup ;;
  match r with
  | inr err => ret (Some err)
  | inl allGoms =>
      let goms := filter_goms allGoms in
      phases args goms
  end.

End Program.

(** ** The vocabulary of the properties *)

Definition is_update_call (e : event) : bool :=
  match e with
  | EvCall (CallUpdate _ _) => true
  | _ => false
  end.

Definition is_checkout_call (e : event) : bool :=
  match e with
  | EvCall (CallCheckout _ _ _) => true
  | _ => false
  end.

Definition is_run (e : event) : bool :=
  match e with
  | EvRun _ _ => true
  | _ => false
  end.

Fixpoint count (f : event -> bool) (l : list event) : nat :=
  match l with
  | [] => 0
  | e :: l' => (if f e then 1 else 0) + count f l'
  end.

(** How many times [Update], [Checkout] were called, and how many processes
    were started, up to a world. *)
Definition updates (w : World) : nat := count is_update_call (trace w).
Definition checkouts (w : World) : nat := count is_checkout_call (trace w).
Definition runs (w : World) : nat := count is_run (trace w).

Section Vocabulary.

Variable E : Env.

(** The working directory of [w'] is that of [w], unless the change back to
    it fails in [w']. *)
Definition restored (w w' : World) : Prop :=
  cwd w' = cwd w \/ exists err, os_Chdir E (cwd w) w' = Done (Some err) w'.

(** An option that is present and whose value is not a string, or is the
    empty string. *)
Definition blank (m : gmap string value) (key : string) : Prop :=
  is_Some (m !! key) /\ string_or_empty m key = "".

(** The tree after the copy of [src] to [dst] and the removal of [src]. *)
Definition relocated (tree : FS) (src dst : list string) : FS :=
  fun q =>
    if under src q then None
    else match strip_prefix dst q with
         | Some rel => match tree (src ++ rel) with
                       | Some n => Some n
                       | None => tree q
                       end
         | None => tree q
         end.

(** [Clone] up to the move: the command of the dependency or the private
    repository and, when they did not fail, the default fetch. The world it
    ends in is the one the move starts from. *)
Definition Clone_fetched (gom : Gom) (args : list string) (vendor nm : string)
  : M (option error) :=
  bind (Clone_custom E gom vendor nm) (fun err =>
    match err with
    | Some err => ret (Some err)
    | None =>
        bind (fmt_Printf ("downloading " +:+ nm +:+ newline)) (fun _ =>
          run E (default_fetch args nm))
    end).

(** What [isDir] answers in a world. *)
Definition stat_dir (w : World) (p : string) : bool :=
  match isDir E p w with
  | Done b _ => b
  | Panic _ _ => false
  end.

(** The control system whose metadata directory is found in [p]: git
    before mercurial before bazaar. *)
Definition marker (w : World) (p : string) : option vcsCmd :=
  if stat_dir w (filepath_Join [p; ".git"]) then Some git
  else if stat_dir w (filepath_Join [p; ".hg"]) then Some hg
  else if stat_dir w (filepath_Join [p; ".bzr"]) then Some bzr
  else None.

(** The directories of the walk: [p] extended by one element of the name
    after the other. *)
Fixpoint walk_prefixes (p : string) (elems : list string) : list string :=
  match elems with
  | [] => []
  | elem :: rest =>
      let p' := filepath_Join [p; elem] in
      p' :: walk_prefixes p' rest
  end.

(** The marker of the first directory that has one. *)
Fixpoint first_marker (w : World) (ps : list string) : option vcsCmd :=
  match ps with
  | [] => None
  | p :: ps' =>
      match marker w p with
      | Some vcs => Some vcs
      | None => first_marker w ps'
      end
  end.

(** The warning of the pinner. *)
Definition warning (gom : Gom) : event :=
  EvPrint ("Warning: don't know how to checkout for " +:+ name gom +:+ newline).

(** The predicate of the filter. *)
Definition keep (gom : Gom) : bool :=
  match options gom !! "group" with
  | Some group => matchEnv E group
  | None => true
  end
  &&
  match options gom !! "goos" with
  | Some goos => matchOS E goos
  | None => true
  end.

End Vocabulary.

(** ** Paths from the root

    What [filepath.Clean] computes on a path that starts with a slash, said
    on the list of its elements. *)

(** [sep] occurs in [s]. *)
Fixpoint contains (sep : ascii) (s : string) : bool :=
  match s with
  | EmptyString => false
  | String c s' => Ascii.eqb c sep || contains sep s'
  end.

(** One element of a rooted path: [clean_step] with no leading [..]. *)
Definition cstep (out : list string) (elem : string) : list string :=
  if String.eqb elem "" then out
  else if String.eqb elem "." then out
  else if String.eqb elem ".." then tl out
  else elem :: out.

(** An element that [filepath.Clean] keeps as it is. *)
Definition properb (elem : string) : bool :=
  negb (String.eqb elem "") && negb (String.eqb elem ".")
    && negb (String.eqb elem "..") && negb (contains slash elem).

(** The rooted path with the elements [out], the last one first. *)
Definition canon (out : list string) : string :=
  "/" +:+ strings_Join (rev out) "/".

(** The elements of the directories of the walk from the rooted path with
    the elements [out], along [elems]. *)
Fixpoint walk_states (out : list string) (elems : list string)
  : list (list string) :=
  match elems with
  | [] => []
  | elem :: rest => cstep out elem :: walk_states (cstep out elem) rest
  end.

(** The strings that [boolString] maps to [true]. *)
Definition truthy : list string := ["t"; "true"; "y"; "yes"; "on"; "1"].

(** The tree after the copy of [src] to [dst], before the removal. *)
Definition copied (tree : FS) (src dst : list string) : FS :=
  fun q =>
    match strip_prefix dst q with
    | Some rel => match tree (src ++ rel) with
                  | Some n => Some n
                  | None => tree q
                  end
    | None => tree q
    end.

(** ** Concrete worlds

    Small trees, processes and dependencies on which the program is run in
    the examples that follow the theorems. *)

Fixpoint path_eqb (p q : list string) : bool :=
  match p, q with
  | [], [] => true
  | x :: p', y :: q' => String.eqb x y && path_eqb p' q'
  | _, _ => false
  end.

(** The tree that holds exactly the listed nodes. *)
Fixpoint tree_of (nodes : list (list string * node)) : FS :=
  fun q =>
    match nodes with
    | [] => None
    | (p, n) :: rest => if path_eqb p q then Some n else tree_of rest q
    end.

Definition dirs (paths : list (list string)) : FS :=
  tree_of (map (fun p => (p, Dir)) paths).

Definition exit_status_1 : error := ExitError "exit status 1".

Definition no_manifest : string -> World -> list Gom + error :=
  fun _ _ => inl [].

(** Every process fails and leaves the tree as it is; no system call is
    refused. *)
Definition E_fail : Env :=
  mkEnv (fun _ w => (fs w, Some exit_status_1)) (fun _ _ => None)
        no_manifest (fun _ => true) (fun _ => true) "_vendor".

(** Every process succeeds and leaves the tree as it is. *)
Definition E_ok : Env :=
  mkEnv (fun _ w => (fs w, None)) (fun _ _ => None)
        no_manifest (fun _ => true) (fun _ => true) "_vendor".

(** Every process succeeds and removes the directory [/w/proj]. *)
Definition E_rm : Env :=
  mkEnv (fun _ w => (fun q => if under ["w"; "proj"] q then None else fs w q, None))
        (fun _ _ => None)
        no_manifest (fun _ => true) (fun _ => true) "_vendor".

(** The revision [v1.0] is known to the repository [a/b/c] once [git fetch]
    has run there: [git fetch] leaves a file for it in [.git], and a
    checkout fails as long as that file is missing. *)
Definition ref_v1 : list string :=
  ["w"; "_vendor"; "src"; "a"; "b"; "c"; ".git"; "v1.0"].

Definition E_fetch : Env :=
  mkEnv (fun argv w =>
           if path_eqb argv ["git"; "fetch"] then
             (fun q => if path_eqb q ref_v1 then Some (File "") else fs w q,
              None)
           else if path_eqb argv ["git"; "checkout"; "-q"; "v1.0"] then
             (fs w, if is_file_node (fs w ref_v1) then None
                    else Some exit_status_1)
           else (fs w, None))
        (fun _ _ => None)
        no_manifest (fun _ => true) (fun _ => true) "_vendor".

(** A workspace [/w/_vendor] that holds the git repository [a/b/c], seen
    from the project directory [/w]. *)
Definition tree_abc : FS :=
  dirs [[]; ["w"]; ["w"; "proj"]; ["w"; "_vendor"]; ["w"; "_vendor"; "src"];
        ["w"; "_vendor"; "src"; "a"]; ["w"; "_vendor"; "src"; "a"; "b"];
        ["w"; "_vendor"; "src"; "a"; "b"; "c"];
        ["w"; "_vendor"; "src"; "a"; "b"; "c"; ".git"]].

Definition w_abc : World := mkWorld "/w" tree_abc [] [].

(** The same tree seen from [/w/proj]. *)
Definition w_proj : World := mkWorld "/w/proj" tree_abc [] [].

Definition tab : string := String (ascii_of_nat 9) EmptyString.

(** The dependencies of the examples. *)
Definition gom_tagged : Gom :=
  mkGom "a/b/c" {[ "tag" := VString "v1.0" ]}.

Definition gom_pinned : Gom :=
  mkGom "a/b/c"
    (<[ "branch" := VString "b" ]>
       (<[ "tag" := VString "t" ]> {[ "commit" := VString "c" ]})).

Definition gom_tag_branch : Gom :=
  mkGom "a/b/c" (<[ "branch" := VString "b" ]> {[ "tag" := VString "t" ]}).

Definition gom_branch : Gom :=
  mkGom "a/b/c" {[ "branch" := VString "b" ]}.

Definition gom_plain : Gom := mkGom "a/b/c" ∅.

Definition gom_blank_commit : Gom :=
  mkGom "a/b/c" (<[ "branch" := VString "b" ]> {[ "commit" := VBool true ]}).

Definition gom_private : Gom :=
  mkGom "github.com/org/proj" {[ "private" := VString "true" ]}.

Definition gom_private_short : Gom :=
  mkGom "host/repo" {[ "private" := VString "true" ]}.


Definition gom_command_tab : Gom :=
  mkGom "x/y" {[ "command" := VString ("make" +:+ tab +:+ "fetch") ]}.

Definition gom_fork : Gom :=
  mkGom "org/repo" {[ "fork" := VString "me/repo" ]}.

Definition gom_self_fork : Gom :=
  mkGom "org/repo" {[ "fork" := VString "org/repo" ]}.

Definition gom_nested_fork : Gom :=
  mkGom "org/repo" {[ "fork" := VString "org/repo/sub" ]}.

(** A workspace where the fetched tree of the fork [org/repo/sub] lies inside
    the directory of the target [org/repo] and holds a directory [sub] of
    its own. *)
Definition tree_nested : FS :=
  tree_of
    [([], Dir); (["w"], Dir); (["w"; "_vendor"], Dir);
     (["w"; "_vendor"; "src"], Dir);
     (["w"; "_vendor"; "src"; "org"], Dir);
     (["w"; "_vendor"; "src"; "org"; "repo"], Dir);
     (["w"; "_vendor"; "src"; "org"; "repo"; "sub"], Dir);
     (["w"; "_vendor"; "src"; "org"; "repo"; "sub"; "sub"], Dir);
     (["w"; "_vendor"; "src"; "org"; "repo"; "sub"; "sub"; "README"],
      File "fork")].

Definition w_nested : World := mkWorld "/w" tree_nested [] [].

Definition gom_test_only : Gom :=
  mkGom "t/u" {[ "group" := VString "test" ]}.

(** A workspace that holds the private repository and the fetched trees of
    [me/repo] and [org/repo], each with one file. *)
Definition tree_fetched : FS :=
  tree_of
    [([], Dir); (["w"], Dir); (["w"; "_vendor"], Dir);
     (["w"; "_vendor"; "src"], Dir);
     (["w"; "_vendor"; "src"; "github.com"], Dir);
     (["w"; "_vendor"; "src"; "github.com"; "org"], Dir);
     (["w"; "_vendor"; "src"; "github.com"; "org"; "proj"], Dir);
     (["w"; "_vendor"; "src"; "me"], Dir);
     (["w"; "_vendor"; "src"; "me"; "repo"], Dir);
     (["w"; "_vendor"; "src"; "me"; "repo"; "README"], File "fork");
     (["w"; "_vendor"; "src"; "org"], Dir);
     (["w"; "_vendor"; "src"; "org"; "repo"], Dir);
     (["w"; "_vendor"; "src"; "org"; "repo"; "README"], File "upstream")].

Definition w_fetched : World := mkWorld "/w" tree_fetched [] [].

(** The environment matches the group [production] only, and the system
    [linux] only. *)
Definition E_production : Env :=
  mkEnv (fun _ w => (fs w, None)) (fun _ _ => None) no_manifest
        (fun group => match group with
                      | VString g => String.eqb g "production"
                      | _ => false
                      end)
        (fun goos => match goos with
                     | VString o => String.eqb o "linux"
                     | _ => false
                     end)
        "_vendor".

Definition gom_private_no : Gom :=
  mkGom "github.com/org/proj" {[ "private" := VString "No" ]}.

Definition gom_retargeted : Gom :=
  mkGom "a/b/c" (<[ "target" := VString "x/y" ]> {[ "tag" := VString "v1.0" ]}).

(** A dependency that is fetched from the fork [f/g], moved to the target
    [x/y], and pinned to a tag. *)
Definition gom_fork_target : Gom :=
  mkGom "a/b/c"
    (<[ "fork" := VString "f/g" ]>
       (<[ "target" := VString "x/y" ]> {[ "tag" := VString "v1.0" ]})).

(** A workspace that holds the fetched git repository of the fork [f/g]. *)
Definition tree_fg : FS :=
  tree_of
    [([], Dir); (["w"], Dir); (["w"; "_vendor"], Dir);
     (["w"; "_vendor"; "src"], Dir);
     (["w"; "_vendor"; "src"; "f"], Dir);
     (["w"; "_vendor"; "src"; "f"; "g"], Dir);
     (["w"; "_vendor"; "src"; "f"; "g"; ".git"], Dir);
     (["w"; "_vendor"; "src"; "f"; "g"; "README"], File "fork")].

Definition w_fg : World := mkWorld "/w" tree_fg [] [].

Definition gom_bad_fork : Gom :=
  mkGom "org/repo" {[ "fork" := VBool true ]}.

(** Every process succeeds and leaves the tree as it is; the removal of a
    directory is refused. *)
Definition E_keep : Env :=
  mkEnv (fun _ w => (fs w, None))
        (fun op _ => match op with
                     | SysRemoveAll p => Some (PathError "unlinkat" p EACCES)
                     | _ => None
                     end)
        no_manifest (fun _ => true) (fun _ => true) "_vendor".

(** * Properties *)

(** ** Reading the world does not change it *)

Section Reads.

Variable E : Env.

Lemma os_Getwd_reads (w : World) :
  exists r, os_Getwd E w = Done r w.
Proof.
  unfold os_Getwd.
  destruct (refused E SysGetwd w); [eauto|].
  destruct (is_dir w (cwd w)); eauto.
Qed.

Lemma os_Stat_reads (p : string) (w : World) :
  exists r, os_Stat E p w = Done r w.
Proof.
  unfold os_Stat.
  destruct (refused E (SysStat p) w); [eauto|].
  destruct (lookup_path w p); eauto.
Qed.

Lemma filepath_Abs_reads (p : string) (w : World) :
  exists r, filepath_Abs E p w = Done r w.
Proof.
  unfold filepath_Abs.
  destruct (filepath_IsAbs p); [unfold ret; eauto|].
  unfold bind. destruct (os_Getwd_reads w) as [r ->].
  destruct r; unfold ret; eauto.
Qed.

Lemma isDir_reads (p : string) (w : World) :
  exists b, isDir E p w = Done b w.
Proof.
  unfold isDir, bind.
  destruct (os_Stat_reads (filepath_Join [p]) w) as [r ->].
  destruct r as [[|]|]; unfold ret; eauto.
Qed.

Lemma probe_reads (p : string) (w : World) :
  exists found, probe E p w = Done found w.
Proof.
  unfold probe, bind.
  destruct (isDir_reads (filepath_Join [p; ".git"]) w) as [g ->].
  destruct g; [unfold ret; eauto|].
  destruct (isDir_reads (filepath_Join [p; ".hg"]) w) as [h ->].
  destruct h; [unfold ret; eauto|].
  destruct (isDir_reads (filepath_Join [p; ".bzr"]) w) as [b ->].
  destruct b; unfold ret; eauto.
Qed.

End Reads.

(** ** The revision selector *)

Section Selector.

Variable E : Env.

Lemma has_lookup (m : gmap string value) (key : string) :
  has (CMap m) key = match m !! key with Some _ => true | None => false end.
Proof. reflexivity. Qed.

Lemma selector_unfold (gom : Gom) :
  commit_or_branch_or_tag gom =
    match options gom !! "commit" with
    | Some _ => string_or_empty (options gom) "commit"
    | None =>
        match options gom !! "tag" with
        | Some _ => string_or_empty (options gom) "tag"
        | None =>
            match options gom !! "branch" with
            | Some _ => string_or_empty (options gom) "branch"
            | None => ""
            end
        end
    end.
Proof.
  unfold commit_or_branch_or_tag. rewrite !has_lookup.
  destruct (options gom !! "commit"), (options gom !! "tag"),
    (options gom !! "branch"); reflexivity.
Qed.

Lemma string_or_empty_string (m : gmap string value) (key s : string) :
  m !! key = Some (VString s) -> string_or_empty m key = s.
Proof. intros H. unfold string_or_empty, string_at. now rewrite H. Qed.

Lemma Checkout_no_selector (gom : Gom) (w : World) :
  commit_or_branch_or_tag gom = "" -> Gom_Checkout E gom w = Done None w.
Proof. intros H. unfold Gom_Checkout. now rewrite H. Qed.

(** C3. The revision that the checkout phase selects obeys the precedence
    commit over tag over branch: a [commit] option set to a string is
    selected whatever [tag] and [branch] are; without a [commit] option, a
    [tag] option set to a string is selected whatever [branch] is; without
    both, the [branch] option is. With none of the three options the phase
    does nothing and returns no error. *)
Theorem selector_precedence (gom : Gom) :
  (forall c, options gom !! "commit" = Some (VString c) ->
             commit_or_branch_or_tag gom = c) /\
  (forall t, options gom !! "commit" = None ->
             options gom !! "tag" = Some (VString t) ->
             commit_or_branch_or_tag gom = t) /\
  (forall b, options gom !! "commit" = None ->
             options gom !! "tag" = None ->
             options gom !! "branch" = Some (VString b) ->
             commit_or_branch_or_tag gom = b) /\
  (options gom !! "commit" = None ->
   options gom !! "tag" = None ->
   options gom !! "branch" = None ->
   forall w, Gom_Checkout E gom w = Done None w).
Proof.
  rewrite selector_unfold. repeat split.
  - intros c Hc. rewrite Hc. now apply string_or_empty_string.
  - intros t Hc Ht. rewrite Hc, Ht. now apply string_or_empty_string.
  - intros b Hc Ht Hb. rewrite Hc, Ht, Hb. now apply string_or_empty_string.
  - intros Hc Ht Hb w. apply Checkout_no_selector.
    rewrite selector_unfold. now rewrite Hc, Ht, Hb.
Qed.

(** C10. An option of higher precedence that is present and whose value is
    not a string, or is the empty string, replaces the selection of the
    options of lower precedence by the empty string: the phase pins nothing
    and returns no error, leaving the world as it is. *)
Theorem blank_option_discards_selection (gom : Gom) :
  blank (options gom) "commit" \/
    (options gom !! "commit" = None /\ blank (options gom) "tag") ->
  commit_or_branch_or_tag gom = "" /\
  forall w, Gom_Checkout E gom w = Done None w.
Proof.
  intros H.
  assert (Hsel : commit_or_branch_or_tag gom = "").
  { rewrite selector_unfold.
    destruct H as [[[v Hv] Hb] | [Hc [[v Hv] Hb]]].
    - now rewrite Hv.
    - now rewrite Hc, Hv. }
  split; [exact Hsel|].
  intros w. now apply Checkout_no_selector.
Qed.

End Selector.

(** ** Scoped commands and the fallback of [Sync] *)

Section Scoped.

Variable E : Env.

Lemma os_Chdir_cases (dir : string) (w : World) :
  (os_Chdir E dir w = Done None (set_cwd (resolve w dir) w)) \/
  (exists err, os_Chdir E dir w = Done (Some err) w).
Proof.
  unfold os_Chdir.
  destruct (refused E (SysChdir dir) w); [eauto|].
  destruct (lookup_path w dir) as [[|]|]; eauto.
Qed.

(** An absolute path names the same directory in every world. *)
Lemma resolve_abs (w : World) (p : string) :
  filepath_IsAbs p = true -> resolve w p = p.
Proof. intros H. unfold resolve. now rewrite H. Qed.

(** What [vcsExec] does, path by path. [w1] is the world in the target
    directory and [w2] the world the process leaves. *)
Lemma vcsExec_paths (dir : string) (args : list string) (w : World) :
  let w1 := set_cwd (resolve w dir) w in
  let w2 := match args with
            | [] => w1
            | _ :: _ => log (EvRun (cwd w1) args) (set_fs (fst (process E args w1)) w1)
            end in
  world_of (vcsExec E dir args w) = w \/
  (os_Chdir E dir w = Done None w1 /\
   (world_of (vcsExec E dir args w) = set_cwd (resolve w2 (cwd w)) w2 \/
    (world_of (vcsExec E dir args w) = w2 /\
     exists err, os_Chdir E (cwd w) w2 = Done (Some err) w2))).
Proof.
  intros w1 w2. unfold vcsExec, bind.
  unfold os_Getwd.
  destruct (refused E SysGetwd w); [now left|].
  destruct (is_dir w (cwd w)); [|now left].
  destruct (os_Chdir_cases dir w) as [Hcd | [err Hcd]]; rewrite Hcd;
    [|now left].
  right. split; [reflexivity|].
  unfold with_defer. fold w1.
  destruct args as [|a args].
  - unfold panic. subst w2.
    destruct (os_Chdir_cases (cwd w) w1) as [Hb | [err Hb]]; rewrite Hb; cbn.
    + now left.
    + right. eauto.
  - unfold exec_Run.
    destruct (process E (a :: args) w1) as [tree err] eqn:Hp. cbn [fst] in w2.
    fold w2.
    destruct (os_Chdir_cases (cwd w) w2) as [Hb | [err' Hb]]; rewrite Hb; cbn.
    + now left.
    + right. eauto.
Qed.

(** The trace after [vcsExec]: at most one process more, and it ran in the
    target directory. *)
Lemma vcsExec_trace (dir : string) (args : list string) (w : World) :
  trace (world_of (vcsExec E dir args w)) = trace w \/
  trace (world_of (vcsExec E dir args w))
    = trace w ++ [EvRun (resolve w dir) args].
Proof.
  destruct (vcsExec_paths dir args w) as [-> | [_ [-> | [-> _]]]];
    destruct args; cbn; auto.
Qed.

Lemma count_app (f : event -> bool) (l l' : list event) :
  count f (l ++ l') = count f l + count f l'.
Proof. induction l as [|e l IH]; cbn; [reflexivity|]. rewrite IH. lia. Qed.

Lemma vcsExec_calls (dir : string) (args : list string) (w : World) :
  updates (world_of (vcsExec E dir args w)) = updates w /\
  checkouts (world_of (vcsExec E dir args w)) = checkouts w.
Proof.
  unfold updates, checkouts.
  destruct (vcsExec_trace dir args w) as [-> | ->]; [auto|].
  rewrite !count_app. cbn. lia.
Qed.

Lemma vcs_Checkout_calls (vcs : vcsCmd) (p d : string) (w : World) :
  updates (world_of (vcs_Checkout E vcs p d w)) = updates w /\
  checkouts (world_of (vcs_Checkout E vcs p d w)) = S (checkouts w).
Proof.
  unfold vcs_Checkout.
  destruct (vcsExec_calls p (checkout vcs ++ [d])
              (log (EvCall (CallCheckout vcs p d)) w)) as [-> ->].
  unfold updates, checkouts, log. cbn [trace].
  rewrite !count_app. cbn. lia.
Qed.

Lemma vcs_Update_calls (vcs : vcsCmd) (p : string) (w : World) :
  updates (world_of (vcs_Update E vcs p w)) = S (updates w) /\
  checkouts (world_of (vcs_Update E vcs p w)) = checkouts w.
Proof.
  unfold vcs_Update.
  destruct (vcsExec_calls p (update vcs) (log (EvCall (CallUpdate vcs p)) w))
    as [-> ->].
  unfold updates, checkouts, log. cbn [trace].
  rewrite !count_app. cbn. lia.
Qed.

(** C1, as the program has it. [Sync] first calls [Checkout]. When that
    succeeds, [Update] is not called and [Sync] succeeds. When it fails,
    [Update] is called once; if [Update] fails, [Sync] returns its error and
    [Checkout] is not called again; if [Update] succeeds, [Checkout] is
    called once more and [Sync] returns what that call returns. *)
Theorem Sync_fallback (vcs : vcsCmd) (p d : string) (w : World) :
  match vcs_Checkout E vcs p d w with
  | Done None w1 =>
      vcs_Sync E vcs p d w = Done None w1 /\
      updates w1 = updates w /\ checkouts w1 = 1 + checkouts w
  | Done (Some _) w1 =>
      match vcs_Update E vcs p w1 with
      | Done (Some err) w2 =>
          vcs_Sync E vcs p d w = Done (Some err) w2 /\
          updates w2 = 1 + updates w /\ checkouts w2 = 1 + checkouts w
      | Done None w2 =>
          vcs_Sync E vcs p d w = vcs_Checkout E vcs p d w2 /\
          updates (world_of (vcs_Sync E vcs p d w)) = 1 + updates w /\
          checkouts (world_of (vcs_Sync E vcs p d w)) = 2 + checkouts w
      | Panic msg w2 => vcs_Sync E vcs p d w = Panic msg w2
      end
  | Panic msg w1 => vcs_Sync E vcs p d w = Panic msg w1
  end.
Proof.
  pose proof (vcs_Checkout_calls vcs p d w) as [Hu1 Hc1].
  unfold vcs_Sync at 1 2 3 4 5 6 7, bind.
  destruct (vcs_Checkout E vcs p d w) as [[e1|] w1|msg w1]; cbn in Hu1, Hc1;
    [| now unfold ret | reflexivity].
  pose proof (vcs_Update_calls vcs p w1) as [Hu2 Hc2].
  destruct (vcs_Update E vcs p w1) as [[e2|] w2|msg w2]; cbn in Hu2, Hc2;
    [unfold ret; repeat split; lia | | reflexivity].
  pose proof (vcs_Checkout_calls vcs p d w2) as [Hu3 Hc3].
  repeat split; lia.
Qed.

Lemma vcsExec_cwd (dir : string) (args : list string) (w : World) :
  filepath_IsAbs (cwd w) = true ->
  let w' := world_of (vcsExec E dir args w) in
  cwd w' = cwd w \/
  (cwd w' = resolve w dir /\
   exists err, os_Chdir E (cwd w) w' = Done (Some err) w').
Proof.
  intros Habs w'. subst w'.
  destruct (vcsExec_paths dir args w) as [-> | [_ [-> | [-> Hfail]]]].
  - now left.
  - left. cbn. now apply resolve_abs.
  - right. split; [|exact Hfail]. destruct args; reflexivity.
Qed.

Lemma vcsExec_restored (dir : string) (args : list string) (w : World) :
  filepath_IsAbs (cwd w) = true ->
  restored E w (world_of (vcsExec E dir args w)).
Proof.
  intros Habs. destruct (vcsExec_cwd dir args w Habs) as [H | [_ H]].
  - now left.
  - now right.
Qed.

(** C8, as the program has it. [vcsExec] runs its command in the target
    directory, and on every path out of it, whether the command succeeds,
    fails or was never started, the working directory is the one it was
    called in, unless the change back to that directory failed: that error
    is dropped and the program stays in the target directory. The same
    holds of the commands that go through it: the checkout and the update of
    a control system, and the build. *)
Theorem vcsExec_restores (dir : string) (args : list string) (w : World)
    (vcs : vcsCmd) (p d : string) (gom : Gom) (build_args : list string) :
  filepath_IsAbs (cwd w) = true ->
  let w' := world_of (vcsExec E dir args w) in
  (cwd w' = cwd w \/
   (cwd w' = resolve w dir /\
    exists err, os_Chdir E (cwd w) w' = Done (Some err) w')) /\
  (trace w' = trace w \/ trace w' = trace w ++ [EvRun (resolve w dir) args]) /\
  restored E w (world_of (vcs_Checkout E vcs p d w)) /\
  restored E w (world_of (vcs_Update E vcs p w)) /\
  restored E w (world_of (Gom_Build E gom build_args w)).
Proof.
  intros Habs w'.
  split; [now apply vcsExec_cwd|]. split; [apply vcsExec_trace|].
  split; [|split].
  - exact (vcsExec_restored p (checkout vcs ++ [d])
             (log (EvCall (CallCheckout vcs p d)) w) Habs).
  - exact (vcsExec_restored p (update vcs)
             (log (EvCall (CallUpdate vcs p)) w) Habs).
  - unfold Gom_Build, bind.
    destruct (filepath_Abs_reads E (vendorFolder E) w) as [[vendor|err] ->].
    + now apply vcsExec_restored.
    + now left.
Qed.

End Scoped.

(** ** The fetch engine *)

Section Fetch.

Variable E : Env.

Lemma privateUrl_short (gom : Gom) :
  (length (strings_Split (name gom) "/") < 3)%nat ->
  privateUrl gom false = None.
Proof.
  unfold privateUrl.
  destruct (strings_Split (name gom) "/") as [|n0 [|n1 [|n2 l]]]; cbn;
    [reflexivity | reflexivity | reflexivity | lia].
Qed.

Lemma Clone_unfold (gom : Gom) (args : list string) (w : World)
    (vendor nm : string) :
  filepath_Abs E (vendorFolder E) w = Done (inl vendor) w ->
  getFork gom = Some nm ->
  Gom_Clone E gom args w =
    match Clone_custom E gom vendor nm w with
    | Done (Some err) w1 => Done (Some err) w1
    | Done None w1 => Clone_default E gom args vendor nm w1
    | Panic msg w1 => Panic msg w1
    end.
Proof.
  intros Habs Hfork. unfold Gom_Clone, bind. rewrite Habs, Hfork.
  destruct (Clone_custom E gom vendor nm w) as [[err|] w1|msg w1]; reflexivity.
Qed.

(** C9. The clone of a private repository is not total. When the [private]
    option is truthy, the [https] option is not, the program takes the
    branch that clones, and the name of the dependency has fewer than three
    elements between slashes, the program panics with an index out of range
    while it builds the URL; it returns no error and starts no process. *)
Theorem clonePrivate_short_name_panics (gom : Gom) (args : list string)
    (w : World) (vendor nm priv : string) (err : error) :
  filepath_Abs E (vendorFolder E) w = Done (inl vendor) w ->
  getFork gom = Some nm ->
  string_at (options gom) "command" = None ->
  string_at (options gom) "private" = Some priv ->
  boolString_at (strings_ToLower priv) = true ->
  https_option gom = false ->
  os_Stat E (filepath_Join [vendor; "src"; nm]) w = Done (inr err) w ->
  os_IsExist err = false ->
  (length (strings_Split (name gom) "/") < 3)%nat ->
  Gom_Clone E gom args w =
    Panic "index out of range"
      (log (EvPrint ("cloning private " +:+ nm +:+ newline)) w).
Proof.
  intros Habs Hfork Hcmd Hpriv Htrue Hhttps Hstat Hexist Hshort.
  rewrite (Clone_unfold gom args w vendor nm Habs Hfork).
  unfold Clone_custom. rewrite Hcmd, Hpriv, Htrue.
  unfold bind. rewrite Hstat, Hexist, Hhttps.
  unfold fmt_Printf, Gom_clonePrivate.
  now rewrite (privateUrl_short gom Hshort).
Qed.


End Fetch.

(** ** The move from the fork to the target *)

Section Relocation.

Variable E : Env.

Lemma strip_prefix_app (d rel : list string) :
  strip_prefix d (d ++ rel) = Some rel.
Proof.
  induction d as [|x d IH]; cbn; [reflexivity|].
  now rewrite String.eqb_refl.
Qed.

Lemma under_app (s d rel : list string) :
  under s (d ++ rel) = true -> under s d = true \/ under d s = true.
Proof.
  unfold under. revert d.
  induction s as [|x s IH]; intros d H; [now left|].
  destruct d as [|y d]; [now right|].
  cbn in *. rewrite (String.eqb_sym y x).
  destruct (String.eqb x y); [now apply IH | discriminate].
Qed.

Lemma relocated_target (tree : FS) (src dst rel : list string) (n : node) :
  under src dst = false -> under dst src = false ->
  tree (src ++ rel) = Some n ->
  relocated tree src dst (dst ++ rel) = Some n.
Proof.
  intros Hsd Hds Hn. unfold relocated.
  destruct (under src (dst ++ rel)) eqn:Hu.
  - apply under_app in Hu. destruct Hu; congruence.
  - now rewrite strip_prefix_app, Hn.
Qed.

Lemma Clone_fork_success (gom : Gom) (vendor nm fork : string)
    (result : option error) (w0 w' : World) :
  has (CMap (options gom)) "fork" = true ->
  getFork gom = Some fork ->
  Clone_fork E gom vendor nm result w0 = Done None w' ->
  fs w' =
    relocated (fs w0)
      (clean_elems (resolve w0 (filepath_Join [vendor; "src"; fork])))
      (clean_elems (resolve w0 (filepath_Join [vendor; "src"; getTarget gom]))).
Proof.
  intros Hhas Hfork. unfold Clone_fork. rewrite Hhas, Hfork.
  unfold bind, fmt_Printf, mustCopyDir.
  destruct (refused E _ _); [unfold ret; discriminate|].
  match goal with |- context [match fs ?w ?s with _ => _ end] =>
    destruct (fs w s) as [[|c]|] eqn:Hsrc end;
    [|unfold ret; discriminate|unfold ret; discriminate].
  unfold os_RemoveAll.
  destruct (refused E _ _); [unfold ret; discriminate|].
  unfold ret. intros [= -> <-]. reflexivity.
Qed.

(** C4, as the program has it. For a dependency with a [fork] option, when
    [Clone] returns no error it leaves the tree that the fetch left, with
    the fork directory copied to the target directory and then removed:
    nothing is left at or under the fork directory, and when the two
    directories are apart (neither is the other or lies inside it) every
    path that was under the fork directory before the move is under the
    target directory, with what it held. *)
Theorem fork_relocation (gom : Gom) (args : list string) (w w' : World)
    (vendor fork : string) :
  filepath_Abs E (vendorFolder E) w = Done (inl vendor) w ->
  has (CMap (options gom)) "fork" = true ->
  getFork gom = Some fork ->
  Gom_Clone E gom args w = Done None w' ->
  let w0 := world_of (Clone_fetched E gom args vendor fork w) in
  let src := clean_elems (resolve w0 (filepath_Join [vendor; "src"; fork])) in
  let dst :=
    clean_elems (resolve w0 (filepath_Join [vendor; "src"; getTarget gom])) in
  fs w' = relocated (fs w0) src dst /\
  (forall q, under src q = true -> fs w' q = None) /\
  (under src dst = false -> under dst src = false ->
   forall rel n, fs w0 (src ++ rel) = Some n -> fs w' (dst ++ rel) = Some n).
Proof.
  intros Habs Hhas Hfork Hdone.
  pose proof Hdone as Hrun.
  rewrite (Clone_unfold E gom args w vendor fork Habs Hfork) in Hrun.
  unfold Clone_fetched, bind.
  destruct (Clone_custom E gom vendor fork w) as [[err|] w1|msg w1];
    [discriminate| |discriminate].
  unfold Clone_default, bind, fmt_Printf, run, exec_Run in Hrun |- *.
  destruct (process E (default_fetch args fork)
              (log (EvPrint ("downloading " +:+ fork +:+ newline)) w1))
    as [tree result].
  cbn [world_of].
  match type of Hrun with Clone_fork _ _ _ _ _ ?w0 = _ =>
    set (W0 := w0) in * end.
  pose proof (Clone_fork_success gom vendor fork fork result W0 w'
                Hhas Hfork Hrun) as Hfs.
  cbv zeta. split; [exact Hfs|]. rewrite Hfs. split.
  - intros q Hq. unfold relocated. now rewrite Hq.
  - intros Hsd Hds rel n Hn. now apply relocated_target.
Qed.

End Relocation.

(** ** The revision pinner *)

Section Pinner.

Variable E : Env.

Lemma isDir_stat_dir (p : string) (w : World) :
  isDir E p w = Done (stat_dir E w p) w.
Proof.
  unfold stat_dir. destruct (isDir_reads E p w) as [b Hb]. now rewrite Hb.
Qed.

Lemma probe_marker (p : string) (w : World) :
  probe E p w = Done (marker E w p) w.
Proof.
  unfold probe, marker, bind. rewrite !isDir_stat_dir.
  destruct (stat_dir E w (filepath_Join [p; ".git"])); [reflexivity|].
  rewrite isDir_stat_dir.
  destruct (stat_dir E w (filepath_Join [p; ".hg"])); [reflexivity|].
  rewrite isDir_stat_dir.
  destruct (stat_dir E w (filepath_Join [p; ".bzr"])); reflexivity.
Qed.

Lemma Checkout_walk_first_marker (gom : Gom) (vendor sel : string) (w : World)
    (elems : list string) :
  forall p,
    Checkout_walk E gom vendor sel p elems w =
      match first_marker E w (walk_prefixes p elems) with
      | Some vcs => vcs_Sync E vcs (filepath_Join [vendor; "src"; name gom]) sel w
      | None => Done (Some unsupported_vcs) (log (warning gom) w)
      end.
Proof.
  induction elems as [|elem rest IH]; intros p; [reflexivity|].
  cbn [Checkout_walk walk_prefixes first_marker]. unfold bind.
  rewrite probe_marker.
  destruct (marker E w (filepath_Join [p; elem])); [reflexivity|apply IH].
Qed.

(** [first_marker] is the marker of the earliest directory that has one. *)
Lemma first_marker_earliest (w : World) (ps : list string) (vcs : vcsCmd) :
  first_marker E w ps = Some vcs ->
  exists before p after,
    ps = before ++ p :: after /\
    Forall (fun q => marker E w q = None) before /\
    marker E w p = Some vcs.
Proof.
  induction ps as [|p ps IH]; cbn; [discriminate|].
  destruct (marker E w p) as [v|] eqn:Hm.
  - intros [= ->]. exists [], p, ps. repeat split; [constructor|exact Hm].
  - intros H. destruct (IH H) as (before & p' & after & -> & Hb & Hp).
    exists (p :: before), p', after. repeat split; [|exact Hp].
    now constructor.
Qed.

Lemma runs_log_print (text : string) (w : World) :
  runs (log (EvPrint text) w) = runs w.
Proof. unfold runs, log. cbn [trace]. rewrite count_app. cbn. lia. Qed.

(** The pinner, on the name of the dependency (the [target] option is not
    read). With a revision selected and the workspace resolved, the pinner
    walks from the source root of the workspace along the elements of the
    name of the dependency, looks in each directory of the walk for the
    metadata of git, then mercurial, then bazaar, and at the first directory
    that has one calls the [Sync] of that control system on the whole
    directory of the dependency with the selected revision. When no
    directory of the walk has one, it prints a warning and returns the error
    of the unsupported control system, and no process was started. *)
Theorem pinner_walk (gom : Gom) (w : World) (vendor : string) :
  commit_or_branch_or_tag gom <> "" ->
  filepath_Abs E (vendorFolder E) w = Done (inl vendor) w ->
  let sel := commit_or_branch_or_tag gom in
  let root := filepath_Join [vendor; "src"] in
  let target := filepath_Join [vendor; "src"; name gom] in
  match first_marker E w (walk_prefixes root (strings_Split (name gom) "/")) with
  | Some vcs => Gom_Checkout E gom w = vcs_Sync E vcs target sel w
  | None =>
      Gom_Checkout E gom w = Done (Some unsupported_vcs) (log (warning gom) w) /\
      runs (world_of (Gom_Checkout E gom w)) = runs w
  end.
Proof.
  intros Hsel Habs sel root target.
  assert (Hrun : Gom_Checkout E gom w =
                 Checkout_walk E gom vendor sel root
                   (strings_Split (name gom) "/") w).
  { unfold Gom_Checkout. fold sel.
    destruct (String.eqb_spec sel ""); [contradiction|].
    unfold bind. now rewrite Habs. }
  rewrite Hrun, Checkout_walk_first_marker. subst target.
  destruct (first_marker E w _); [reflexivity|].
  split; [reflexivity|]. cbn [world_of]. apply runs_log_print.
Qed.

End Pinner.

(** ** The orchestrator *)

Section Orchestrator.

Variable E : Env.

Lemma filter_step_keep (goms : list Gom) (gom : Gom) :
  filter_step E goms gom = if keep E gom then goms ++ [gom] else goms.
Proof.
  unfold filter_step, keep.
  destruct (options gom !! "group") as [group|];
    [destruct (matchEnv E group)|];
    (destruct (options gom !! "goos") as [goos|];
     [destruct (matchOS E goos)|]); reflexivity.
Qed.

Lemma fold_filter_step (allGoms acc : list Gom) :
  fold_left (filter_step E) allGoms acc = acc ++ List.filter (keep E) allGoms.
Proof.
  revert acc. induction allGoms as [|gom rest IH]; intros acc; cbn.
  - now rewrite app_nil_r.
  - rewrite IH, filter_step_keep.
    destruct (keep E gom); [now rewrite <- app_assoc|reflexivity].
Qed.

Lemma os_MkdirAll_trace (p : string) (w : World) :
  exists r w', os_MkdirAll E p w = Done r w' /\ trace w' = trace w.
Proof.
  unfold os_MkdirAll.
  destruct (refused E (SysMkdirAll p) w); [eauto|].
  destruct (existsb _ _); eauto.
Qed.

Lemma os_Setenv_trace (key val : string) (w : World) :
  exists r w', os_Setenv E key val w = Done r w' /\ trace w' = trace w.
Proof.
  unfold os_Setenv.
  destruct (refused E (SysSetenv key val) w); eauto.
Qed.

(** Nothing is printed and no process is started before the filter. *)
Lemma setup_trace (w : World) :
  exists r w', setup E w = Done r w' /\ trace w' = trace w.
Proof.
  unfold setup.
  destruct (parseGomfile E "Gomfile" w) as [allGoms|err]; [|eauto].
  unfold bind.
  destruct (filepath_Abs_reads E (vendorFolder E) w) as [[vendor|err] ->];
    [|unfold ret; eauto].
  destruct (os_Stat_reads E vendor w) as [st ->].
  assert (Hmk : exists r w', match st with
                             | inr _ => os_MkdirAll E vendor
                             | inl _ => ret None
                             end w = Done r w' /\ trace w' = trace w).
  { destruct st; [unfold ret; eauto|apply os_MkdirAll_trace]. }
  destruct Hmk as (r & w1 & -> & Ht1).
  destruct r as [err|]; [unfold ret; eauto|].
  destruct (os_Setenv_trace "GOPATH" vendor w1) as (r & w2 & -> & Ht2).
  destruct r; unfold ret; do 2 eexists; (split; [reflexivity|congruence]).
Qed.

(** C7. The filter keeps a dependency by a predicate on its [group] and
    [goos] options alone, and keeps the order of the manifest: a dependency
    with neither option is kept; one whose [group] does not match the
    environment is left out, and so is one whose [goos] does not match the
    system, whatever its other options. The filter runs once, after the
    setup, in which nothing is printed and no process is started, and the
    three phases see only the dependencies that were kept. *)
Theorem filter_is_a_predicate :
  (forall allGoms, filter_goms E allGoms = List.filter (keep E) allGoms) /\
  (forall gom, options gom !! "group" = None -> options gom !! "goos" = None ->
               keep E gom = true) /\
  (forall gom group, options gom !! "group" = Some group ->
                     matchEnv E group = false -> keep E gom = false) /\
  (forall gom goos, options gom !! "goos" = Some goos ->
                    matchOS E goos = false -> keep E gom = false) /\
  (forall gom gom', options gom !! "group" = options gom' !! "group" ->
                    options gom !! "goos" = options gom' !! "goos" ->
                    keep E gom = keep E gom') /\
  (forall args w,
     exists r w1, setup E w = Done r w1 /\ trace w1 = trace w /\
       install E args w =
         match r with
         | inl allGoms => phases E args (List.filter (keep E) allGoms) w1
         | inr err => Done (Some err) w1
         end).
Proof.
  repeat split.
  - intros allGoms. unfold filter_goms. now rewrite fold_filter_step.
  - intros gom Hg Ho. unfold keep. now rewrite Hg, Ho.
  - intros gom group Hg Hm. unfold keep. now rewrite Hg, Hm.
  - intros gom goos Ho Hm. unfold keep. rewrite Ho, Hm. apply andb_false_r.
  - intros gom gom' Hg Ho. unfold keep. now rewrite Hg, Ho.
  - intros args w. destruct (setup_trace w) as (r & w1 & Hs & Ht).
    exists r, w1. split; [exact Hs|]. split; [exact Ht|].
    unfold install, bind. rewrite Hs.
    destruct r as [allGoms|err]; [|reflexivity].
    unfold filter_goms. now rewrite fold_filter_step.
Qed.

End Orchestrator.

(** ** Splitting, joining and cleaning *)

Section PathLemmas.

Lemma append_nil_l (s : string) : "" +:+ s = s.
Proof. reflexivity. Qed.

Lemma append_cons (c : ascii) (a b : string) :
  String c a +:+ b = String c (a +:+ b).
Proof. reflexivity. Qed.

Lemma Split_nonempty (s : string) (sep : ascii) : strings_Split s sep <> [].
Proof.
  destruct s as [|c s]; cbn; [discriminate|].
  destruct (Ascii.eqb c sep); [discriminate|].
  destruct (strings_Split s sep); discriminate.
Qed.

Lemma Split_app (a b : string) (sep : ascii) :
  strings_Split (a +:+ String sep b) sep
    = strings_Split a sep ++ strings_Split b sep.
Proof.
  induction a as [|c a IH].
  - change ("" +:+ String sep b) with (String sep b). cbn.
    now rewrite Ascii.eqb_refl.
  - change (String c a +:+ String sep b) with (String c (a +:+ String sep b)).
    cbn [strings_Split]. rewrite IH. destruct (Ascii.eqb c sep); [reflexivity|].
    pose proof (Split_nonempty a sep) as Hne.
    destruct (strings_Split a sep); [contradiction|reflexivity].
Qed.

Lemma Split_no_sep (s : string) (sep : ascii) :
  contains sep s = false -> strings_Split s sep = [s].
Proof.
  induction s as [|c s IH]; cbn; [reflexivity|].
  intros H. apply orb_false_iff in H as [Hc Hs].
  rewrite Hc, (IH Hs). reflexivity.
Qed.

Lemma Split_pieces (s : string) (sep : ascii) :
  Forall (fun piece => contains sep piece = false) (strings_Split s sep).
Proof.
  induction s as [|c s IH]; cbn; [repeat constructor|].
  destruct (Ascii.eqb c sep) eqn:Hc; [now constructor|].
  destruct (strings_Split s sep) as [|piece pieces]; [repeat constructor; cbn; now rewrite Hc|].
  inversion IH; subst. constructor; [cbn; now rewrite Hc|assumption].
Qed.

(** Joining the pieces of a split with the separator gives the string
    back. *)
Lemma Join_Split (s : string) (sep : ascii) :
  strings_Join (strings_Split s sep) (String sep "") = s.
Proof.
  induction s as [|c s IH]; cbn; [reflexivity|].
  destruct (Ascii.eqb c sep) eqn:Hc.
  - apply Ascii.eqb_eq in Hc. subst c.
    pose proof (Split_nonempty s sep) as Hne.
    destruct (strings_Split s sep) as [|x xs]; [contradiction|].
    cbn in *. now rewrite IH.
  - destruct (strings_Split s sep) as [|x xs]; [cbn in IH; now subst|].
    destruct xs as [|y ys]; cbn in *; now rewrite <- IH.
Qed.

Lemma Split_Join (l : list string) (sep : ascii) :
  l <> [] ->
  Forall (fun piece => contains sep piece = false) l ->
  strings_Split (strings_Join l (String sep "")) sep = l.
Proof.
  induction l as [|x l IH]; [contradiction|]. intros _ Hall.
  inversion Hall as [|? ? Hx Hl]; subst.
  destruct l as [|y l]; [now apply Split_no_sep|].
  change (strings_Join (x :: y :: l) (String sep ""))
    with (x +:+ String sep (strings_Join (y :: l) (String sep ""))).
  rewrite Split_app, (Split_no_sep x sep Hx), IH; [reflexivity|discriminate|assumption].
Qed.

End PathLemmas.

Section CleanLemmas.

Lemma clean_step_rooted (out : list string) (elem : string) :
  clean_step true (out, 0) elem = (cstep out elem, 0).
Proof.
  unfold clean_step, cstep.
  destruct (String.eqb elem ""); [reflexivity|].
  destruct (String.eqb elem "."); [reflexivity|].
  destruct (String.eqb elem ".."); [|reflexivity].
  destruct out; reflexivity.
Qed.

Lemma clean_fold_rooted (l : list string) (out : list string) :
  fold_left (clean_step true) l (out, 0) = (fold_left cstep l out, 0).
Proof.
  revert out. induction l as [|e l IH]; intros out; cbn [fold_left];
    [reflexivity|].
  now rewrite clean_step_rooted, IH.
Qed.

Lemma clean_elems_rooted (p : string) :
  filepath_IsAbs p = true ->
  clean_elems p = rev (fold_left cstep (strings_Split p slash) []).
Proof.
  intros H. unfold clean_elems. now rewrite H, clean_fold_rooted.
Qed.

Lemma Clean_rooted (p : string) :
  filepath_IsAbs p = true ->
  filepath_Clean p = canon (fold_left cstep (strings_Split p slash) []).
Proof.
  intros H. unfold filepath_Clean, canon.
  destruct p as [|c p]; [discriminate|].
  cbn [String.eqb]. cbv zeta. rewrite H. now rewrite (clean_elems_rooted _ H).
Qed.

Lemma cstep_proper (out : list string) (elem : string) :
  forallb properb out = true ->
  contains slash elem = false ->
  forallb properb (cstep out elem) = true.
Proof.
  intros Hout He. unfold cstep.
  destruct (String.eqb elem "") eqn:H1; [exact Hout|].
  destruct (String.eqb elem ".") eqn:H2; [exact Hout|].
  destruct (String.eqb elem "..") eqn:H3.
  - destruct out; [reflexivity|]. cbn in Hout.
    now apply andb_true_iff in Hout as [_ Hout].
  - cbn. unfold properb at 1. now rewrite H1, H2, H3, He, Hout.
Qed.

Lemma cfold_proper (l out : list string) :
  forallb properb out = true ->
  Forall (fun elem => contains slash elem = false) l ->
  forallb properb (fold_left cstep l out) = true.
Proof.
  revert out. induction l as [|e l IH]; intros out Hout Hl; cbn; [exact Hout|].
  inversion Hl; subst. apply IH; [now apply cstep_proper|assumption].
Qed.

Lemma cstep_keeps (out : list string) (elem : string) :
  properb elem = true -> cstep out elem = elem :: out.
Proof.
  unfold properb, cstep. intros H.
  repeat (apply andb_true_iff in H as [H ?]).
  destruct (String.eqb elem ""); [discriminate|].
  destruct (String.eqb elem "."); [discriminate|].
  destruct (String.eqb elem ".."); [discriminate|reflexivity].
Qed.

Lemma cfold_keeps (l out : list string) :
  forallb properb l = true -> fold_left cstep l out = rev l ++ out.
Proof.
  revert out. induction l as [|e l IH]; intros out H; cbn; [reflexivity|].
  cbn in H. apply andb_true_iff in H as [He Hl].
  rewrite (cstep_keeps out e He), (IH _ Hl), <- app_assoc. reflexivity.
Qed.

Lemma proper_no_slash (l : list string) :
  forallb properb l = true ->
  Forall (fun elem => contains slash elem = false) l.
Proof.
  induction l as [|e l IH]; cbn; [constructor|].
  intros H. apply andb_true_iff in H as [He Hl].
  constructor; [|now apply IH].
  unfold properb in He. apply andb_true_iff in He as [_ He].
  now destruct (contains slash e).
Qed.

Lemma forallb_rev (l : list string) :
  forallb properb (rev l) = forallb properb l.
Proof.
  induction l as [|e l IH]; cbn; [reflexivity|].
  rewrite forallb_app, IH. cbn. rewrite andb_true_r. apply andb_comm.
Qed.

(** The elements of [canon out] are [out]. *)
Lemma cfold_canon (out : list string) :
  forallb properb out = true ->
  fold_left cstep (strings_Split (canon out) slash) [] = out.
Proof.
  intros Hout. unfold canon.
  change ("/" +:+ strings_Join (rev out) "/")
    with ("" +:+ String slash (strings_Join (rev out) (String slash ""))).
  rewrite Split_app. cbn [strings_Split app fold_left]. 
  change (cstep [] "") with (@nil string).
  destruct (rev out) as [|x l] eqn:Hrev.
  - cbn. destruct out; [reflexivity|].
    apply (f_equal (@length string)) in Hrev. cbn in Hrev.
    rewrite length_app in Hrev. cbn in Hrev. lia.
  - assert (Hp : forallb properb (x :: l) = true).
    { rewrite <- Hrev, forallb_rev. exact Hout. }
    rewrite Split_Join; [|discriminate|now apply proper_no_slash].
    rewrite (cfold_keeps _ _ Hp), app_nil_r, <- Hrev. apply rev_involutive.
Qed.

Lemma canon_rooted (out : list string) : filepath_IsAbs (canon out) = true.
Proof. reflexivity. Qed.

Lemma Join_pair (p elem : string) :
  p <> "" -> filepath_Join [p; elem] = filepath_Clean (p +:+ String slash elem).
Proof.
  intros Hp. cbn [filepath_Join].
  destruct (String.eqb_spec p ""); [contradiction|reflexivity].
Qed.

Lemma rooted_append (p q : string) :
  filepath_IsAbs p = true -> filepath_IsAbs (p +:+ q) = true.
Proof. destruct p; [discriminate|intros H; exact H]. Qed.

Lemma rooted_nonempty (p : string) : filepath_IsAbs p = true -> p <> "".
Proof. destruct p; [discriminate|discriminate]. Qed.

(** One more element after a rooted path. *)
Lemma Join_rooted (p elem : string) :
  filepath_IsAbs p = true ->
  filepath_Join [p; elem] =
    canon (fold_left cstep (strings_Split elem slash)
             (fold_left cstep (strings_Split p slash) [])).
Proof.
  intros Hp.
  rewrite (Join_pair p elem (rooted_nonempty p Hp)).
  rewrite (Clean_rooted _ (rooted_append p _ Hp)).
  now rewrite Split_app, fold_left_app.
Qed.

Lemma Join_canon (out : list string) (elem : string) :
  forallb properb out = true ->
  filepath_Join [canon out; elem] =
    canon (fold_left cstep (strings_Split elem slash) out).
Proof.
  intros Hout. rewrite (Join_rooted _ elem (canon_rooted out)).
  now rewrite cfold_canon.
Qed.

(** The state of the source root of the workspace. *)
Lemma root_state (vendor : string) :
  filepath_IsAbs vendor = true ->
  let out0 := fold_left cstep ["src"] (fold_left cstep (strings_Split vendor slash) []) in
  forallb properb out0 = true /\
  filepath_Join [vendor; "src"] = canon out0 /\
  forall nm, filepath_Join [vendor; "src"; nm] =
               canon (fold_left cstep (strings_Split nm slash) out0).
Proof.
  intros Hv out0. split; [|split].
  - apply cfold_proper; [|repeat constructor].
    apply cfold_proper; [reflexivity|apply Split_pieces].
  - now apply Join_rooted.
  - intros nm. cbn [filepath_Join].
    destruct (String.eqb_spec vendor ""); [now apply rooted_nonempty in Hv|].
    change (strings_Join [vendor; "src"; nm] "/")
      with (vendor +:+ String slash ("src" +:+ String slash nm)).
    rewrite (Clean_rooted _ (rooted_append vendor _ Hv)).
    rewrite Split_app, Split_app, !fold_left_app. reflexivity.
Qed.

End CleanLemmas.

(** ** Where the pinner looks *)

Section Walk.

Variable E : Env.

Lemma walk_prefixes_canon (elems : list string) :
  Forall (fun elem => contains slash elem = false) elems ->
  forall out, forallb properb out = true ->
    walk_prefixes (canon out) elems = map canon (walk_states out elems).
Proof.
  induction 1 as [|elem rest Helem _ IH]; intros out Hout; [reflexivity|].
  cbn [walk_prefixes walk_states map].
  rewrite (Join_canon out elem Hout), (Split_no_sep elem slash Helem).
  cbn [fold_left]. f_equal. apply IH. now apply cstep_proper.
Qed.

Lemma walk_states_last (elems : list string) (out d : list string) :
  elems <> [] ->
  List.last (walk_states out elems) d = fold_left cstep elems out.
Proof.
  revert out. induction elems as [|elem rest IH]; intros out Hne;
    [contradiction|].
  destruct rest as [|elem' rest']; [reflexivity|].
  change (walk_states out (elem :: elem' :: rest'))
    with (cstep out elem :: walk_states (cstep out elem) (elem' :: rest')).
  change (fold_left cstep (elem :: elem' :: rest') out)
    with (fold_left cstep (elem' :: rest') (cstep out elem)).
  rewrite <- (IH (cstep out elem)); [|discriminate].
  cbn [walk_states]. reflexivity.
Qed.

Lemma last_map (l : list (list string)) (d : list string) :
  List.last (map canon l) (canon d) = canon (List.last l d).
Proof.
  induction l as [|x l IH]; [reflexivity|].
  destruct l; [reflexivity|exact IH].
Qed.

Lemma walk_states_proper (elems : list string) :
  Forall (fun elem => contains slash elem = false) elems ->
  forall out, forallb properb out = true ->
    Forall (fun st => forallb properb st = true) (walk_states out elems).
Proof.
  induction 1 as [|elem rest Helem _ IH]; intros out Hout; cbn; constructor.
  - now apply cstep_proper.
  - apply IH. now apply cstep_proper.
Qed.

(** Without [..] the elements of the start stay at the end of every state. *)
Lemma walk_states_extend (elems : list string) :
  Forall (fun elem => elem <> "..") elems ->
  forall out,
    Forall (fun st => exists more, st = more ++ out) (walk_states out elems).
Proof.
  induction 1 as [|elem rest Helem _ IH]; intros out; cbn; [constructor|].
  assert (Hstep : exists more, cstep out elem = more ++ out).
  { unfold cstep.
    destruct (String.eqb elem ""); [now exists []|].
    destruct (String.eqb elem "."); [now exists []|].
    destruct (String.eqb_spec elem ".."); [contradiction|].
    now exists [elem]. }
  constructor; [exact Hstep|].
  destruct Hstep as [more Hmore].
  apply (List.Forall_impl
           (P := fun st => exists more', st = more' ++ cstep out elem));
    [|apply IH].
  intros st [more' ->]. exists (more' ++ more). now rewrite Hmore, app_assoc.
Qed.

Lemma clean_elems_canon (out : list string) :
  forallb properb out = true -> clean_elems (canon out) = rev out.
Proof.
  intros Hout. now rewrite (clean_elems_rooted _ (canon_rooted out)), cfold_canon.
Qed.

Lemma under_extend (a b : list string) : under a (a ++ b) = true.
Proof. unfold under. now rewrite strip_prefix_app. Qed.

Lemma first_marker_some (w : World) (ps : list string) (p : string) :
  In p ps -> marker E w p <> None ->
  exists vcs, first_marker E w ps = Some vcs.
Proof.
  induction ps as [|q ps IH]; [contradiction|].
  intros Hin Hm. cbn.
  destruct (marker E w q) as [v|] eqn:Hq; [eauto|].
  destruct Hin as [-> | Hin]; [contradiction|now apply IH].
Qed.

Lemma first_marker_variant (w : World) (ps : list string) (vcs : vcsCmd) :
  first_marker E w ps = Some vcs -> vcs = git \/ vcs = hg \/ vcs = bzr.
Proof.
  induction ps as [|q ps IH]; cbn; [discriminate|].
  destruct (marker E w q) as [v|] eqn:Hq; [|exact IH].
  intros [= <-]. unfold marker in Hq.
  destruct (stat_dir E w _); [injection Hq as <-; auto|].
  destruct (stat_dir E w _); [injection Hq as <-; auto|].
  destruct (stat_dir E w _); [injection Hq as <-; auto|discriminate].
Qed.

(** The walk of the pinner, for a workspace given by a rooted path: its
    directories are those of the states from the source root. *)
Lemma pinner_walk_states (vendor nm : string) :
  filepath_IsAbs vendor = true ->
  let out0 := fold_left cstep ["src"]
                (fold_left cstep (strings_Split vendor slash) []) in
  forallb properb out0 = true /\
  walk_prefixes (filepath_Join [vendor; "src"]) (strings_Split nm slash)
    = map canon (walk_states out0 (strings_Split nm slash)) /\
  filepath_Join [vendor; "src"; nm]
    = canon (fold_left cstep (strings_Split nm slash) out0).
Proof.
  intros Hv out0.
  destruct (root_state vendor Hv) as (Hp & Hroot & Htarget). fold out0 in Hp, Hroot, Htarget.
  split; [exact Hp|]. split; [|apply Htarget].
  rewrite Hroot. apply walk_prefixes_canon; [apply Split_pieces|exact Hp].
Qed.

Lemma walk_last_target (vendor nm : string) :
  filepath_IsAbs vendor = true ->
  List.last (walk_prefixes (filepath_Join [vendor; "src"])
               (strings_Split nm slash)) ""
    = filepath_Join [vendor; "src"; nm].
Proof.
  intros Hv. destruct (pinner_walk_states vendor nm Hv) as (_ & -> & ->).
  pose proof (Split_nonempty nm slash) as Hne.
  destruct (walk_states _ (strings_Split nm slash)) as [|st sts] eqn:Hst.
  - destruct (strings_Split nm slash); [contradiction|discriminate].
  - rewrite <- Hst.
    transitivity (List.last
                    (map canon (walk_states
                       (fold_left cstep ["src"]
                          (fold_left cstep (strings_Split vendor slash) []))
                       (strings_Split nm slash))) (canon [])).
    + rewrite Hst. cbn [map]. generalize (map canon sts), (canon st).
      intros l x. revert x. induction l as [|y l IH]; intros x; [reflexivity|].
      apply IH.
    + rewrite last_map. f_equal. now apply walk_states_last.
Qed.



(** X2. When the directory of the dependency holds the metadata of git, of
    mercurial or of bazaar, the pinner does not give up: with a revision
    selected, [Checkout] is the [Sync] of one of the three control systems
    on that directory with that revision. *)
Theorem repository_is_pinned (gom : Gom) (w : World) (vendor : string) :
  commit_or_branch_or_tag gom <> "" ->
  filepath_Abs E (vendorFolder E) w = Done (inl vendor) w ->
  filepath_IsAbs vendor = true ->
  marker E w (filepath_Join [vendor; "src"; name gom]) <> None ->
  exists vcs,
    (vcs = git \/ vcs = hg \/ vcs = bzr) /\
    Gom_Checkout E gom w =
      vcs_Sync E vcs (filepath_Join [vendor; "src"; name gom])
        (commit_or_branch_or_tag gom) w.
Proof.
  intros Hsel Habs Hv Hm.
  set (ps := walk_prefixes (filepath_Join [vendor; "src"])
               (strings_Split (name gom) "/")).
  assert (Hin : In (filepath_Join [vendor; "src"; name gom]) ps).
  { pose proof (walk_last_target vendor (name gom) Hv) as Hlast.
    unfold slash in Hlast. fold ps in Hlast. rewrite <- Hlast.
    assert (Hne : ps <> []).
    { subst ps. pose proof (Split_nonempty (name gom) "/").
      destruct (strings_Split (name gom) "/"); [contradiction|discriminate]. }
    destruct (exists_last Hne) as (l & x & ->).
    rewrite last_last. apply in_or_app. right. now left. }
  destruct (first_marker_some w ps _ Hin Hm) as [vcs Hvcs].
  exists vcs. split; [exact (first_marker_variant w ps vcs Hvcs)|].
  unfold Gom_Checkout.
  destruct (String.eqb_spec (commit_or_branch_or_tag gom) ""); [contradiction|].
  unfold bind. rewrite Habs, Checkout_walk_first_marker.
  fold ps. now rewrite Hvcs.
Qed.

(** X3. With no element [..] in the name, every directory in which the
    pinner looks for metadata lies in the source root of the workspace. *)
Theorem walk_stays_in_workspace (vendor nm : string) :
  filepath_IsAbs vendor = true ->
  Forall (fun elem => elem <> "..") (strings_Split nm slash) ->
  Forall (fun p => under (clean_elems (filepath_Join [vendor; "src"]))
                     (clean_elems p) = true)
    (walk_prefixes (filepath_Join [vendor; "src"]) (strings_Split nm slash)).
Proof.
  intros Hv Hdots.
  destruct (pinner_walk_states vendor nm Hv) as (Hp & Hwalk & _).
  destruct (root_state vendor Hv) as (_ & Hroot & _).
  rewrite Hwalk, Hroot. clear Hwalk Hroot.
  set (out0 := fold_left cstep ["src"]
                 (fold_left cstep (strings_Split vendor slash) [])) in *.
  pose proof (walk_states_proper _ (Split_pieces nm slash) out0 Hp) as Hproper.
  pose proof (walk_states_extend _ Hdots out0) as Hext.
  induction (walk_states out0 (strings_Split nm slash)) as [|st sts IH];
    [constructor|].
  inversion Hproper; subst. inversion Hext as [|? ? [more ->] ?]; subst.
  constructor; [|now apply IH].
  rewrite !clean_elems_canon by assumption.
  rewrite rev_app_distr. apply under_extend.
Qed.

End Walk.

(** ** Options *)

Section Options.

Variable E : Env.

(** X4. [has] answers whether the key is in the map of options, and for a
    list of strings whether the key is one of them; for anything else it
    answers no. *)
Theorem has_membership (key : string) :
  (forall m : gmap string value,
     has (CMap m) key = true <-> is_Some (m !! key)) /\
  (forall a : list string, has (CStrings a) key = true <-> In key a) /\
  has COther key = false.
Proof.
  split; [|split; [|reflexivity]].
  - intros m. cbn. destruct (m !! key) as [v|].
    + split; [intros _; now exists v|reflexivity].
    + split; [discriminate|intros [v Hv]; discriminate].
  - intros a. cbn. rewrite existsb_exists. split.
    + intros (s & Hin & Heq). cbn in Heq. apply String.eqb_eq in Heq.
      now subst.
    + intros Hin. exists key. split; [exact Hin|].
      cbn. apply String.eqb_refl.
Qed.

Lemma boolString_truthy (s : string) :
  boolString_at s = true <-> In s truthy.
Proof.
  unfold boolString_at, boolString, truthy. cbn [list_to_map foldr fst snd].
  repeat (rewrite lookup_insert;
          destruct (decide (_ = s)) as [<- | ?];
          [cbn; intuition discriminate|]).
  rewrite lookup_empty. cbn. intuition congruence.
Qed.

(** X5. An option counts as true exactly when its value, with the letters
    A to Z lowered, is one of [t], [true], [y], [yes], [on] and [1]: the six
    words for false and every other string count as false alike. *)
Theorem boolString_lowered (s : string) :
  boolString_at (strings_ToLower s) = true <-> In (strings_ToLower s) truthy.
Proof. apply boolString_truthy. Qed.

Lemma getFork_panics (gom : Gom) :
  getFork gom = None <->
  exists v, options gom !! "fork" = Some v /\ forall s, v <> VString s.
Proof.
  unfold getFork, string_at. cbn [has].
  destruct (options gom !! "fork") as [v|] eqn:Hf.
  - destruct v as [s| |]; split.
    + discriminate.
    + intros (v & [= <-] & Hv). now destruct (Hv s).
    + intros _. eexists. split; [reflexivity|discriminate].
    + reflexivity.
    + intros _. eexists. split; [reflexivity|discriminate].
    + reflexivity.
  - split; [discriminate|intros (v & Hv & _); discriminate].
Qed.

(** X6. The identity that [Clone] fetches is the [fork] option when it is a
    string, else the [target] option when it is a string, else the name.
    With a [fork] option that is not a string [Clone] panics before it
    prints or runs anything. *)
Theorem fetched_identity (gom : Gom) (args : list string) (w : World)
    (vendor : string) :
  filepath_Abs E (vendorFolder E) w = Done (inl vendor) w ->
  (forall f, options gom !! "fork" = Some (VString f) -> getFork gom = Some f) /\
  (forall t, options gom !! "fork" = None ->
             options gom !! "target" = Some (VString t) -> getFork gom = Some t) /\
  (options gom !! "fork" = None -> string_at (options gom) "target" = None ->
   getFork gom = Some (name gom)) /\
  (forall v, options gom !! "fork" = Some v -> (forall s, v <> VString s) ->
             Gom_Clone E gom args w = Panic "interface conversion" w).
Proof.
  intros Habs. unfold getFork, getTarget, string_at. cbn [has].
  repeat split.
  - intros f Hf. now rewrite Hf.
  - intros t Hf Ht. now rewrite Hf, Ht.
  - intros Hf Ht. rewrite Hf. unfold string_at in Ht. now rewrite Ht.
  - intros v Hf Hv.
    assert (Hp : getFork gom = None).
    { apply getFork_panics. eauto. }
    unfold Gom_Clone, bind. now rewrite Habs, Hp.
Qed.

(** X7. A [private] option that is a string and does not count as true is
    ignored: without a [command] option, [Clone] is the default fetch and
    the move, as for a public dependency. *)
Theorem private_not_truthy_is_public (gom : Gom) (args : list string)
    (w : World) (vendor nm priv : string) :
  filepath_Abs E (vendorFolder E) w = Done (inl vendor) w ->
  getFork gom = Some nm ->
  string_at (options gom) "command" = None ->
  string_at (options gom) "private" = Some priv ->
  ~ In (strings_ToLower priv) truthy ->
  Gom_Clone E gom args w = Clone_default E gom args vendor nm w.
Proof.
  intros Habs Hfork Hcmd Hpriv Hno.
  rewrite (Clone_unfold E gom args w vendor nm Habs Hfork).
  unfold Clone_custom. rewrite Hcmd, Hpriv.
  destruct (boolString_at (strings_ToLower priv)) eqn:Hb; [|reflexivity].
  apply boolString_truthy in Hb. contradiction.
Qed.

End Options.

(** ** Commands in a directory *)

Section Commands.

Variable E : Env.

(** X8. For a directory that does not exist, or is a file, [vcsExec]
    returns an error and leaves the world as it was: the command is not
    started and the working directory is not changed. *)
Theorem vcsExec_missing_directory (dir : string) (args : list string)
    (w : World) :
  lookup_path w dir <> Some Dir ->
  exists err, vcsExec E dir args w = Done (Some err) w.
Proof.
  intros Hdir. unfold vcsExec, bind, os_Getwd.
  destruct (refused E SysGetwd w); [unfold ret; eauto|].
  destruct (is_dir w (cwd w)); [|unfold ret; eauto].
  unfold os_Chdir.
  destruct (refused E (SysChdir dir) w); [unfold ret; eauto|].
  destruct (lookup_path w dir) as [[|c]|]; [contradiction| |];
    unfold ret; eauto.
Qed.

(** When [vcsExec] gets to its command. *)
Lemma vcsExec_started (dir : string) (args : list string) (w : World)
    (c : string) (w1 : World) :
  os_Getwd E w = Done (inl c) w ->
  os_Chdir E dir w = Done None w1 ->
  args <> [] ->
  let w2 := log (EvRun (cwd w1) args) (set_fs (fst (process E args w1)) w1) in
  vcsExec E dir args w =
    Done (snd (process E args w1)) (world_of (os_Chdir E c w2)).
Proof.
  intros Hwd Hcd Hargs w2. unfold vcsExec, bind. rewrite Hwd, Hcd.
  destruct args as [|a args]; [contradiction|].
  unfold with_defer, exec_Run.
  destruct (process E (a :: args) w1) as [tree err] eqn:Hp.
  cbn [fst snd] in *. subst w2.
  destruct (os_Chdir_cases E c
              (log (EvRun (cwd w1) (a :: args)) (set_fs tree w1)))
    as [-> | [err' ->]]; reflexivity.
Qed.

(** X9. When the working directory is known and the change to the target
    directory succeeds, what [vcsExec] returns is what the command returns,
    whether or not the change back to the first directory succeeds: an
    error of that change is never returned. *)
Theorem vcsExec_returns_command_error (dir : string) (args : list string)
    (w : World) (c : string) (w1 : World) :
  os_Getwd E w = Done (inl c) w ->
  os_Chdir E dir w = Done None w1 ->
  args <> [] ->
  exists w', vcsExec E dir args w = Done (snd (process E args w1)) w' /\
             trace w' = trace w ++ [EvRun (cwd w1) args].
Proof.
  intros Hwd Hcd Hargs.
  rewrite (vcsExec_started dir args w c w1 Hwd Hcd Hargs).
  eexists. split; [reflexivity|].
  assert (Ht : trace w1 = trace w).
  { destruct (os_Chdir_cases E dir w) as [H | [err H]]; rewrite H in Hcd;
      [injection Hcd as <-; reflexivity|discriminate]. }
  match goal with |- trace (world_of (os_Chdir E c ?w2)) = _ =>
    destruct (os_Chdir_cases E c w2) as [-> | [err' ->]] end;
    cbn; now rewrite Ht.
Qed.

(** A success of [vcsExec] is a success of its command, which ran last. *)
Lemma vcsExec_success (dir : string) (args : list string) (w w' : World) :
  vcsExec E dir args w = Done None w' ->
  trace w' = trace w ++ [EvRun (resolve w dir) args].
Proof.
  intros H.
  pose proof (vcsExec_paths E dir args w) as Hpaths. cbv zeta in Hpaths.
  rewrite H in Hpaths. cbn [world_of] in Hpaths.
  unfold vcsExec, bind, os_Getwd in H.
  destruct (refused E SysGetwd w); [discriminate|].
  destruct (is_dir w (cwd w)); [|discriminate].
  destruct (os_Chdir_cases E dir w) as [Hcd | [err Hcd]]; rewrite Hcd in H;
    [|discriminate].
  destruct args as [|a args].
  - unfold with_defer, panic in H.
    destruct (os_Chdir E (cwd w) _); discriminate.
  - destruct Hpaths as [-> | [_ [-> | [-> _]]]].
    + exfalso. unfold with_defer, exec_Run in H.
      destruct (process E (a :: args) _) as [tree err].
      destruct (os_Chdir E (cwd w) _) as [r w3|msg w3] eqn:Hb; [|discriminate].
      injection H as _ Hw. 
      destruct (os_Chdir_cases E (cwd w)
                  (log (EvRun (cwd (set_cwd (resolve w dir) w)) (a :: args))
                     (set_fs tree (set_cwd (resolve w dir) w))))
        as [Hc | [e Hc]]; rewrite Hc in Hb; injection Hb as _ <-;
        apply (f_equal trace) in Hw; cbn in Hw;
        apply (f_equal (@length event)) in Hw; rewrite length_app in Hw;
        cbn in Hw; lia.
    + reflexivity.
    + reflexivity.
Qed.

Lemma resolve_log (e : event) (w : World) (p : string) :
  resolve (log e w) p = resolve w p.
Proof. reflexivity. Qed.

(** A success of [vcsExec] is a success of its command: the command ran in
    the target directory, returned no error, and left the tree that
    [vcsExec] leaves. *)
Lemma vcsExec_success_result (dir : string) (args : list string)
    (w w' : World) :
  vcsExec E dir args w = Done None w' ->
  let w1 := set_cwd (resolve w dir) w in
  snd (process E args w1) = None /\
  fs w' = fst (process E args w1) /\
  trace w' = trace w ++ [EvRun (resolve w dir) args].
Proof.
  intros H w1. unfold vcsExec, bind, os_Getwd in H.
  destruct (refused E SysGetwd w); [discriminate|].
  destruct (is_dir w (cwd w)); [|discriminate].
  destruct (os_Chdir_cases E dir w) as [Hcd | [err Hcd]]; rewrite Hcd in H;
    [|discriminate].
  fold w1 in H. unfold with_defer in H.
  destruct args as [|a args].
  - unfold panic in H. destruct (os_Chdir E (cwd w) w1); discriminate.
  - unfold exec_Run in H.
    destruct (process E (a :: args) w1) as [tree err] eqn:Hp. cbn [fst snd].
    destruct (os_Chdir_cases E (cwd w)
                (log (EvRun (cwd w1) (a :: args)) (set_fs tree w1)))
      as [Hb | [err' Hb]]; rewrite Hb in H; injection H as -> <-;
      repeat split.
Qed.

(** X10. [Sync] returns no error only after the checkout command of the
    control system, with the revision as its last argument, ran in the
    directory and returned no error: that run is the last thing in the
    trace, and the tree it left is the tree [Sync] leaves. *)
Theorem Sync_success_ran_checkout (vcs : vcsCmd) (p d : string)
    (w w' : World) :
  filepath_IsAbs p = true ->
  vcs_Sync E vcs p d w = Done None w' ->
  exists w1,
    cwd w1 = p /\
    snd (process E (checkout vcs ++ [d]) w1) = None /\
    fs w' = fst (process E (checkout vcs ++ [d]) w1) /\
    trace w' = trace w1 ++ [EvRun p (checkout vcs ++ [d])].
Proof.
  intros Hp H. unfold vcs_Sync, bind in H.
  destruct (vcs_Checkout E vcs p d w) as [[e1|] w1|msg w1] eqn:H1;
    [| |discriminate].
  - destruct (vcs_Update E vcs p w1) as [[e2|] w2|msg w2];
      [discriminate| |discriminate].
    unfold vcs_Checkout in H. apply vcsExec_success_result in H.
    rewrite resolve_log, (resolve_abs w2 p Hp) in H.
    destruct H as (Hok & Hfs & Htr).
    exists (set_cwd p (log (EvCall (CallCheckout vcs p d)) w2)).
    repeat split; assumption.
  - injection H as <-. unfold vcs_Checkout in H1.
    apply vcsExec_success_result in H1.
    rewrite resolve_log, (resolve_abs w p Hp) in H1.
    destruct H1 as (Hok & Hfs & Htr).
    exists (set_cwd p (log (EvCall (CallCheckout vcs p d)) w)).
    repeat split; assumption.
Qed.

Lemma vcsExec_runs (dir : string) (args : list string) (w : World) :
  runs w <= runs (world_of (vcsExec E dir args w)) <= 1 + runs w.
Proof.
  unfold runs.
  destruct (vcsExec_trace E dir args w) as [-> | ->]; [lia|].
  rewrite count_app. cbn. lia.
Qed.

Lemma runs_log_call (c : call) (w : World) : runs (log (EvCall c) w) = runs w.
Proof. unfold runs, log. cbn [trace]. rewrite count_app. cbn. lia. Qed.

Lemma vcs_Checkout_runs (vcs : vcsCmd) (p d : string) (w : World) :
  runs w <= runs (world_of (vcs_Checkout E vcs p d w)) <= 1 + runs w.
Proof.
  unfold vcs_Checkout.
  pose proof (vcsExec_runs p (checkout vcs ++ [d])
                (log (EvCall (CallCheckout vcs p d)) w)) as H.
  now rewrite runs_log_call in H.
Qed.

Lemma vcs_Update_runs (vcs : vcsCmd) (p : string) (w : World) :
  runs w <= runs (world_of (vcs_Update E vcs p w)) <= 1 + runs w.
Proof.
  unfold vcs_Update.
  pose proof (vcsExec_runs p (update vcs) (log (EvCall (CallUpdate vcs p)) w))
    as H.
  now rewrite runs_log_call in H.
Qed.

(** X11. [Sync] starts at most three processes, and one only when the
    first checkout succeeds. *)
Theorem Sync_at_most_three_processes (vcs : vcsCmd) (p d : string) (w : World) :
  runs (world_of (vcs_Sync E vcs p d w)) <= 3 + runs w /\
  (forall w1, vcs_Checkout E vcs p d w = Done None w1 ->
              runs (world_of (vcs_Sync E vcs p d w)) = 1 + runs w).
Proof.
  pose proof (vcs_Checkout_runs vcs p d w) as H1.
  unfold vcs_Sync, bind.
  destruct (vcs_Checkout E vcs p d w) as [[e1|] w1|msg w1] eqn:Hc;
    cbn [world_of] in *.
  - pose proof (vcs_Update_runs vcs p w1) as H2.
    split; [|discriminate].
    destruct (vcs_Update E vcs p w1) as [[e2|] w2|msg w2];
      cbn [world_of] in *; unfold ret; cbn [world_of]; try lia.
    pose proof (vcs_Checkout_runs vcs p d w2) as H3. lia.
  - unfold ret. cbn [world_of]. split; [lia|].
    intros w1' [= <-]. unfold vcs_Checkout in Hc.
    apply vcsExec_success in Hc. unfold runs. rewrite Hc, count_app.
    unfold log. cbn [trace]. rewrite count_app. cbn. lia.
  - split; [lia|discriminate].
Qed.

(** X12. The pinner and the build read the name of the dependency and its
    three revision options only: two dependencies with the same name and
    the same selected revision are pinned and built alike, whatever their
    [target] and [fork] options are. *)
Theorem pin_and_build_by_name (gom gom' : Gom) (args : list string)
    (w : World) :
  name gom = name gom' ->
  commit_or_branch_or_tag gom = commit_or_branch_or_tag gom' ->
  Gom_Checkout E gom w = Gom_Checkout E gom' w /\
  Gom_Build E gom args w = Gom_Build E gom' args w.
Proof.
  intros Hname Hsel. split.
  - unfold Gom_Checkout. rewrite <- Hsel.
    destruct (String.eqb (commit_or_branch_or_tag gom) ""); [reflexivity|].
    unfold bind.
    destruct (filepath_Abs E (vendorFolder E) w) as [[vendor|err] w1|msg w1];
      [|reflexivity|reflexivity].
    rewrite !Checkout_walk_first_marker. unfold warning.
    now rewrite <- Hname.
  - unfold Gom_Build. now rewrite <- Hname.
Qed.

(** X13. The build starts at most one process: [go install] followed by
    the arguments of the caller as they are, in the directory of the name
    of the dependency in the workspace. When the workspace cannot be
    resolved it returns that error and starts nothing. *)
Theorem Build_runs_go_install (gom : Gom) (args : list string) (w : World) :
  (forall vendor,
     filepath_Abs E (vendorFolder E) w = Done (inl vendor) w ->
     let target := filepath_Join [vendor; "src"; name gom] in
     let w' := world_of (Gom_Build E gom args w) in
     trace w' = trace w \/
     trace w' = trace w ++ [EvRun (resolve w target) ("go" :: "install" :: args)]) /\
  (forall err,
     filepath_Abs E (vendorFolder E) w = Done (inr err) w ->
     Gom_Build E gom args w = Done (Some err) w).
Proof.
  split.
  - intros vendor Habs target w'. subst w'. unfold Gom_Build, bind.
    rewrite Habs. apply vcsExec_trace.
  - intros err Habs. unfold Gom_Build, bind. now rewrite Habs.
Qed.

End Commands.

(** ** Private repositories and commands *)

Section Private.

Variable E : Env.

Lemma contains_app (sep : ascii) (a b : string) :
  contains sep (a +:+ b) = contains sep a || contains sep b.
Proof.
  induction a as [|c a IH]; [reflexivity|].
  change (String c a +:+ b) with (String c (a +:+ b)). cbn [contains].
  now rewrite IH, orb_assoc.
Qed.

Lemma append_assoc (a b c : string) : (a +:+ b) +:+ c = a +:+ (b +:+ c).
Proof.
  induction a as [|x a IH]; [reflexivity|].
  change (String x a +:+ b) with (String x (a +:+ b)).
  change (String x (a +:+ b) +:+ c) with (String x ((a +:+ b) +:+ c)).
  now rewrite IH.
Qed.

(** X14. The command of [pullPrivate], for a directory without a space in
    its path, as the program builds it: the argument of the working tree
    ends with a comma. *)
Theorem pullPrivate_argv (gom : Gom) (srcdir : string) (w : World) :
  contains " " srcdir = false ->
  Gom_pullPrivate E gom srcdir w =
    run E ["git"; "--work-tree=" +:+ srcdir +:+ ",";
           "--git-dir=" +:+ srcdir +:+ "/.git"; "pull"; "origin"]
      (log (EvPrint ("fetching private repo " +:+ name gom +:+ newline)) w).
Proof.
  intros Hs. unfold Gom_pullPrivate, bind, fmt_Printf. f_equal.
  change ("git --work-tree=" +:+ srcdir +:+ ", --git-dir=" +:+ srcdir
            +:+ "/.git pull origin")
    with ("git" +:+ String " " ("--work-tree=" +:+ srcdir
            +:+ ("," +:+ String " " ("--git-dir=" +:+ srcdir
            +:+ ("/.git" +:+ String " " ("pull" +:+ String " " "origin")))))).
  rewrite Split_app.
  rewrite <- (append_assoc "--work-tree=" srcdir), <- append_assoc, Split_app.
  rewrite <- (append_assoc "--git-dir=" srcdir), <- append_assoc, Split_app.
  rewrite Split_app.
  rewrite (Split_no_sep ("--work-tree=" +:+ srcdir +:+ ",")),
          (Split_no_sep ("--git-dir=" +:+ srcdir +:+ "/.git")).
  - rewrite ?append_assoc. reflexivity.
  - rewrite !contains_app, Hs. reflexivity.
  - rewrite !contains_app, Hs. reflexivity.
Qed.

(** X15. The clone of a private repository. Without a [command] option,
    with a [private] option that counts as true and a directory that
    [os.Stat] does not find, [Clone] prints two lines and runs
    [git clone <url> <directory>]; an error of that command is returned at
    once, and after a success the default fetch follows. The URL is
    [https://<name>.git] when the [https] option counts as true, and
    [git@<host>:<organization>/<project>] from the first three elements of
    the name otherwise. *)
Theorem private_clone (gom : Gom) (args : list string) (w : World)
    (vendor nm priv url : string) (err : error) :
  filepath_Abs E (vendorFolder E) w = Done (inl vendor) w ->
  getFork gom = Some nm ->
  string_at (options gom) "command" = None ->
  string_at (options gom) "private" = Some priv ->
  In (strings_ToLower priv) truthy ->
  os_Stat E (filepath_Join [vendor; "src"; nm]) w = Done (inr err) w ->
  os_IsExist err = false ->
  privateUrl gom (https_option gom) = Some url ->
  let srcdir := filepath_Join [vendor; "src"; nm] in
  let w1 := log (EvPrint ("fetching private repo " +:+ name gom +:+ newline))
              (log (EvPrint ("cloning private " +:+ nm +:+ newline)) w) in
  Gom_Clone E gom args w =
    match run E ["git"; "clone"; url; srcdir] w1 with
    | Done (Some err) w2 => Done (Some err) w2
    | Done None w2 => Clone_default E gom args vendor nm w2
    | Panic msg w2 => Panic msg w2
    end /\
  (https_option gom = true -> url = "https://" +:+ name gom +:+ ".git") /\
  (https_option gom = false ->
   exists host org proj rest,
     strings_Split (name gom) "/" = host :: org :: proj :: rest /\
     url = "git@" +:+ host +:+ ":" +:+ org +:+ "/" +:+ proj).
Proof.
  intros Habs Hfork Hcmd Hpriv Htrue Hstat Hexist Hurl srcdir w1.
  split; [|split].
  - rewrite (Clone_unfold E gom args w vendor nm Habs Hfork).
    unfold Clone_custom. rewrite Hcmd, Hpriv.
    apply boolString_truthy in Htrue. rewrite Htrue.
    unfold bind. rewrite Hstat, Hexist.
    unfold fmt_Printf, Gom_clonePrivate. rewrite Hurl.
    unfold bind, fmt_Printf. reflexivity.
  - intros Hh. rewrite Hh in Hurl. now injection Hurl as <-.
  - intros Hh. rewrite Hh in Hurl. unfold privateUrl in Hurl.
    destruct (strings_Split (name gom) "/") as [|h [|o [|p rest]]];
      try discriminate.
    injection Hurl as <-. now exists h, o, p, rest.
Qed.

Lemma Join_snoc (l : list string) (x sep : string) :
  l <> [] -> strings_Join (l ++ [x]) sep = strings_Join l sep +:+ sep +:+ x.
Proof.
  induction l as [|y l IH]; [contradiction|]. intros _.
  destruct l as [|z l]; [reflexivity|].
  change (strings_Join ((y :: z :: l) ++ [x]) sep)
    with (y +:+ sep +:+ strings_Join ((z :: l) ++ [x]) sep).
  rewrite IH by discriminate.
  change (strings_Join (y :: z :: l) sep)
    with (y +:+ sep +:+ strings_Join (z :: l) sep).
  now rewrite !append_assoc.
Qed.

(** X16. The line that [Clone] prints for the command of a dependency shows
    the command as it is written in the option, whatever its spaces,
    followed by the directory. *)
Theorem command_is_printed_as_written (gom : Gom) (vendor nm command : string)
    (w : World) :
  string_at (options gom) "command" = Some command ->
  let srcdir := filepath_Join [vendor; "src"; nm] in
  exists w1,
    Clone_custom E gom vendor nm w = run E (strings_Split command " " ++ [srcdir]) w1 /\
    trace w1 = trace w ++
      [EvPrint ("fetching " +:+ nm +:+ " (" +:+ "[" +:+ command +:+ " "
                  +:+ srcdir +:+ "]" +:+ ")" +:+ newline)].
Proof.
  intros Hcmd srcdir. unfold Clone_custom. rewrite Hcmd.
  unfold bind, fmt_Printf. eexists. split; [reflexivity|].
  unfold log. cbn [trace]. do 3 f_equal. unfold fmt_strings.
  rewrite Join_snoc by apply Split_nonempty.
  change " " with (String " "%char "") at 1.
  rewrite Join_Split. now rewrite !append_assoc.
Qed.

End Private.

(** ** The phases, the setup and the move *)

Section Phases.

Variable E : Env.

Lemma for_each_app (f : Gom -> M (option error)) (a b : list Gom) (w : World) :
  for_each f (a ++ b) w =
    match for_each f a w with
    | Done None w1 => for_each f b w1
    | Done (Some err) w1 => Done (Some err) w1
    | Panic msg w1 => Panic msg w1
    end.
Proof.
  revert w. induction a as [|g a IH]; intros w; [reflexivity|].
  cbn [app for_each]. unfold bind.
  destruct (f g w) as [[err|] w1|msg w1]; [reflexivity|apply IH|reflexivity].
Qed.

Lemma for_each_stops (f : Gom -> M (option error)) (before after : list Gom)
    (g : Gom) (w w1 w2 : World) (err : error) :
  for_each f before w = Done None w1 ->
  f g w1 = Done (Some err) w2 ->
  for_each f (before ++ g :: after) w = Done (Some err) w2.
Proof.
  intros Hb Hg. rewrite for_each_app, Hb. cbn [for_each]. unfold bind.
  now rewrite Hg.
Qed.

(** X17. [install] stops at the first error. When the fetch of a
    dependency fails after the fetches before it succeeded, the phases
    return that error in the world that fetch left: the dependencies after
    it are not fetched, and nothing is pinned or built. When all fetches
    succeed and the pin of a dependency fails after the pins before it
    succeeded, the phases return that error in the world that pin left, and
    nothing is built. *)
Theorem phases_stop_at_first_error (args : list string) (before after : list Gom)
    (g : Gom) (err : error) :
  (forall w w1 w2,
     for_each (fun gom => Gom_Clone E gom args) before w = Done None w1 ->
     Gom_Clone E g args w1 = Done (Some err) w2 ->
     phases E args (before ++ g :: after) w = Done (Some err) w2) /\
  (forall w w1 w2 w3,
     for_each (fun gom => Gom_Clone E gom args) (before ++ g :: after) w
       = Done None w1 ->
     for_each (Gom_Checkout E) before w1 = Done None w2 ->
     Gom_Checkout E g w2 = Done (Some err) w3 ->
     phases E args (before ++ g :: after) w = Done (Some err) w3).
Proof.
  split.
  - intros w w1 w2 Hb Hg. unfold phases, bind.
    now rewrite (for_each_stops _ before after g w w1 w2 err Hb Hg).
  - intros w w1 w2 w3 Hc Hb Hg. unfold phases, bind. rewrite Hc.
    now rewrite (for_each_stops _ before after g w1 w2 w3 err Hb Hg).
Qed.

Lemma under_refl (l : list string) : under l l = true.
Proof.
  unfold under. induction l as [|x l IH]; [reflexivity|].
  cbn. now rewrite String.eqb_refl.
Qed.

(** X18. When the setup of [install] succeeds, the manifest was parsed, the
    variable [GOPATH] is set to the absolute path of the workspace, that
    path exists, and the working directory and the trace are as before. *)
Theorem setup_prepares_workspace (w w1 : World) (allGoms : list Gom) :
  setup E w = Done (inl allGoms) w1 ->
  exists vendor,
    parseGomfile E "Gomfile" w = inl allGoms /\
    filepath_Abs E (vendorFolder E) w = Done (inl vendor) w /\
    environ w1 = ("GOPATH", vendor) :: environ w /\
    lookup_path w1 vendor <> None /\
    cwd w1 = cwd w /\ trace w1 = trace w.
Proof.
  unfold setup.
  destruct (parseGomfile E "Gomfile" w) as [goms|err]; [|discriminate].
  unfold bind.
  destruct (filepath_Abs_reads E (vendorFolder E) w) as [[vendor|err] Habs];
    rewrite Habs; [|discriminate].
  destruct (os_Stat_reads E vendor w) as [st Hst]. rewrite Hst.
  assert (Hmk : forall r w2,
             match st with
             | inr _ => os_MkdirAll E vendor
             | inl _ => ret None
             end w = Done r w2 ->
             r = None ->
             lookup_path w2 vendor <> None /\ cwd w2 = cwd w /\
             trace w2 = trace w /\ environ w2 = environ w).
  { intros r w2 H Hr. subst r. destruct st as [n|e].
    - injection H as <-. split; [|auto].
      unfold os_Stat in Hst.
      destruct (refused E (SysStat vendor) w); [discriminate|].
      destruct (lookup_path w vendor); [discriminate|discriminate].
    - unfold os_MkdirAll in H.
      destruct (refused E (SysMkdirAll vendor) w); [discriminate|].
      destruct (existsb _ _); [discriminate|].
      injection H as <-. split; [|auto].
      unfold lookup_path, set_fs, resolve. cbn [fs cwd].
      destruct (fs w _); [discriminate|].
      now rewrite under_refl. }
  destruct (match st with
            | inr _ => os_MkdirAll E vendor
            | inl _ => ret None
            end w) as [[err|] w2|msg w2] eqn:Hw2;
    [discriminate| |discriminate].
  destruct (Hmk None w2 eq_refl eq_refl) as (Hex & Hcwd & Htr & Henv).
  unfold os_Setenv.
  destruct (refused E (SysSetenv "GOPATH" vendor) w2); [discriminate|].
  unfold ret. intros [= <- <-].
  exists vendor. cbn [environ cwd trace set_environ].
  repeat split; try congruence. exact Hex.
Qed.

(** X19. The move from the fork to the target does not lose the fetched
    tree. For a fork directory and a target directory that are apart,
    whatever [Clone] returns from the move (the result of the fetch, an
    error of the copy or an error of the removal), the tree that was under
    the fork directory is whole under the target directory or still whole
    under the fork directory. *)
Theorem move_keeps_the_tree (gom : Gom) (vendor nm fork : string)
    (result r : option error) (w0 w' : World) :
  has (CMap (options gom)) "fork" = true ->
  getFork gom = Some fork ->
  Clone_fork E gom vendor nm result w0 = Done r w' ->
  let src := clean_elems (resolve w0 (filepath_Join [vendor; "src"; fork])) in
  let dst :=
    clean_elems (resolve w0 (filepath_Join [vendor; "src"; getTarget gom])) in
  under src dst = false -> under dst src = false ->
  (forall rel n, fs w0 (src ++ rel) = Some n -> fs w' (dst ++ rel) = Some n) \/
  (forall rel n, fs w0 (src ++ rel) = Some n -> fs w' (src ++ rel) = Some n).
Proof.
  intros Hhas Hfork H src dst Hsd Hds.
  unfold Clone_fork in H. rewrite Hhas, Hfork in H.
  unfold bind, fmt_Printf, mustCopyDir in H.
  destruct (refused E _ _); [injection H as _ <-; now right|].
  match type of H with context [match fs ?w ?s with _ => _ end] =>
    destruct (fs w s) as [[|c]|] eqn:Hsrc end;
    [|injection H as _ <-; now right|injection H as _ <-; now right].
  unfold os_RemoveAll in H.
  destruct (refused E _ _).
  - injection H as _ <-. left. intros rel n Hn.
    change (copied (fs w0) src dst (dst ++ rel) = Some n).
    unfold copied. now rewrite strip_prefix_app, Hn.
  - injection H as _ <-. left. intros rel n Hn.
    exact (relocated_target (fs w0) src dst rel n Hsd Hds Hn).
Qed.

(** X20. [isDir] and [isFile] only read the world, never answer yes both,
    and both answer no for a path that names nothing. *)
Theorem isDir_isFile_exclusive (p : string) (w : World) :
  exists d f,
    isDir E p w = Done d w /\ isFile E p w = Done f w /\
    d && f = false /\
    (lookup_path w (filepath_Join [p]) = None -> d = false /\ f = false).
Proof.
  unfold isDir, isFile, bind, os_Stat.
  destruct (refused E (SysStat (filepath_Join [p])) w).
  - exists false, false. repeat split.
  - destruct (lookup_path w (filepath_Join [p])) as [[|c]|].
    + exists true, false. repeat split; discriminate.
    + exists false, true. repeat split; discriminate.
    + exists false, false. repeat split.
Qed.

End Phases.

(** ** What the phases never do *)

Section Never.

Variable E : Env.

Lemma vcsExec_returns (dir : string) (args : list string) (w : World) :
  args <> [] -> exists r w', vcsExec E dir args w = Done r w'.
Proof.
  intros Hargs. unfold vcsExec, bind, os_Getwd.
  destruct (refused E SysGetwd w); [unfold ret; eauto|].
  destruct (is_dir w (cwd w)); [|unfold ret; eauto].
  destruct (os_Chdir_cases E dir w) as [-> | [err ->]]; [|unfold ret; eauto].
  destruct args as [|a args]; [contradiction|].
  unfold with_defer, exec_Run.
  destruct (process E (a :: args) _) as [tree err].
  match goal with |- context [os_Chdir E ?c ?w2] =>
    destruct (os_Chdir_cases E c w2) as [-> | [err' ->]] end; eauto.
Qed.

Lemma app_not_nil (l : list string) (x : string) : l ++ [x] <> [].
Proof. destruct l; discriminate. Qed.

Lemma vcs_Sync_returns (vcs : vcsCmd) (p d : string) (w : World) :
  update vcs <> [] -> exists r w', vcs_Sync E vcs p d w = Done r w'.
Proof.
  intros Hup. unfold vcs_Sync, bind, vcs_Checkout, vcs_Update.
  destruct (vcsExec_returns p (checkout vcs ++ [d])
              (log (EvCall (CallCheckout vcs p d)) w) (app_not_nil _ _))
    as (r1 & w1 & ->).
  destruct r1 as [e1|]; [|unfold ret; eauto].
  destruct (vcsExec_returns p (update vcs) (log (EvCall (CallUpdate vcs p)) w1)
              Hup) as (r2 & w2 & ->).
  destruct r2 as [e2|]; [unfold ret; eauto|].
  apply vcsExec_returns, app_not_nil.
Qed.

Lemma first_marker_update (w : World) (ps : list string) (vcs : vcsCmd) :
  first_marker E w ps = Some vcs -> update vcs <> [].
Proof.
  induction ps as [|q ps IH]; cbn; [discriminate|].
  destruct (marker E w q) as [v|] eqn:Hq; [|exact IH].
  intros [= <-]. unfold marker in Hq.
  destruct (stat_dir E w _); [injection Hq as <-; discriminate|].
  destruct (stat_dir E w _); [injection Hq as <-; discriminate|].
  destruct (stat_dir E w _); [injection Hq as <-; discriminate|discriminate].
Qed.

(** X21. The pinner and the build never panic: for every dependency and
    every world they return, with an error or without. (The fetch can
    panic, on a [fork] option that is not a string and on a short name of a
    private repository.) *)
Theorem pin_and_build_never_panic (gom : Gom) (args : list string) (w : World) :
  (exists r w', Gom_Checkout E gom w = Done r w') /\
  (exists r w', Gom_Build E gom args w = Done r w').
Proof.
  split.
  - unfold Gom_Checkout.
    destruct (String.eqb (commit_or_branch_or_tag gom) "");
      [unfold ret; eauto|].
    unfold bind.
    destruct (filepath_Abs_reads E (vendorFolder E) w) as [[vendor|err] ->];
      [|unfold ret; eauto].
    rewrite Checkout_walk_first_marker.
    destruct (first_marker E w _) as [vcs|] eqn:Hm; [|eauto].
    apply vcs_Sync_returns. exact (first_marker_update w _ vcs Hm).
  - unfold Gom_Build, bind.
    destruct (filepath_Abs_reads E (vendorFolder E) w) as [[vendor|err] ->];
      [|unfold ret; eauto].
    apply vcsExec_returns. discriminate.
Qed.

End Never.

(** * Runs of the program on concrete worlds *)

Ltac run_program := vm_compute; reflexivity.

(** ** The fallback of [Sync] *)

(** In a world where every command fails, the first [Checkout] fails, the
    [Update] fails, and [Sync] returns without a second [Checkout]. *)
Lemma Sync_retry_counterexample :
  let r := vcs_Sync E_fail git "/w/_vendor/src/a/b/c" "v1" w_abc in
  (exists w1, vcs_Checkout E_fail git "/w/_vendor/src/a/b/c" "v1" w_abc
              = Done (Some exit_status_1) w1) /\
  (exists w2, r = Done (Some exit_status_1) w2) /\
  checkouts w_abc = 0 /\ checkouts (world_of r) = 1 /\
  updates (world_of r) = 1 /\
  checkouts (world_of r) <> 2 + checkouts w_abc.
Proof.
  cbv zeta. split; [eexists; run_program|].
  split; [eexists; run_program|].
  split; [run_program|]. split; [run_program|]. split; [run_program|].
  vm_compute. discriminate.
Qed.

(** The scenario of the tag [v1.0] that the repository does not know yet:
    one checkout that fails, one update, one checkout that succeeds. *)
Example Sync_fetches_then_retries :
  let r := Gom_Checkout E_fetch gom_tagged w_abc in
  (exists w', r = Done None w') /\
  trace (world_of r) =
    [EvCall (CallCheckout git "/w/_vendor/src/a/b/c" "v1.0");
     EvRun "/w/_vendor/src/a/b/c" ["git"; "checkout"; "-q"; "v1.0"];
     EvCall (CallUpdate git "/w/_vendor/src/a/b/c");
     EvRun "/w/_vendor/src/a/b/c" ["git"; "fetch"];
     EvCall (CallCheckout git "/w/_vendor/src/a/b/c" "v1.0");
     EvRun "/w/_vendor/src/a/b/c" ["git"; "checkout"; "-q"; "v1.0"]] /\
  cwd (world_of r) = "/w".
Proof.
  cbv zeta. split; [eexists; run_program|]. split; run_program.
Qed.

(** ** Scoped commands *)

Lemma vcsExec_restores_witness :
  filepath_IsAbs (cwd w_proj) = true /\
  let w' := world_of (vcsExec E_ok "/w/_vendor/src/a/b/c"
                        ["go"; "install"] w_proj) in
  cwd w' = "/w/proj" /\
  trace w' = [EvRun "/w/_vendor/src/a/b/c" ["go"; "install"]] /\
  restored E_ok w_proj
    (world_of (vcs_Checkout E_ok git "/w/_vendor/src/a/b/c" "v1" w_proj)) /\
  restored E_ok w_proj
    (world_of (vcs_Update E_ok git "/w/_vendor/src/a/b/c" w_proj)) /\
  restored E_ok w_proj (world_of (Gom_Build E_ok gom_tagged [] w_proj)).
Proof.
  assert (Habs : filepath_IsAbs (cwd w_proj) = true) by reflexivity.
  destruct (vcsExec_restores E_ok "/w/_vendor/src/a/b/c" ["go"; "install"]
              w_proj git "/w/_vendor/src/a/b/c" "v1" gom_tagged [] Habs)
    as (_ & _ & Hc & Hu & Hb).
  split; [exact Habs|]. cbv zeta.
  split; [run_program|]. split; [run_program|].
  split; [exact Hc|]. split; [exact Hu|exact Hb].
Defined.

(** A command that removes the directory the program was started in: the
    change back fails and the program is left in the target directory. *)
Lemma vcsExec_restore_counterexample :
  let w' := world_of (vcsExec E_rm "/w/_vendor/src/a/b/c"
                        ["git"; "checkout"; "-q"; "v1"] w_proj) in
  vcsExec E_rm "/w/_vendor/src/a/b/c" ["git"; "checkout"; "-q"; "v1"] w_proj
    = Done None w' /\
  cwd w_proj = "/w/proj" /\
  cwd w' = "/w/_vendor/src/a/b/c" /\
  cwd w' <> cwd w_proj.
Proof.
  cbv zeta. split; [run_program|]. split; [run_program|].
  split; [run_program|]. vm_compute. discriminate.
Qed.

(** ** The revision selector *)

Lemma selector_precedence_witness :
  (options gom_pinned !! "commit" = Some (VString "c") /\
   commit_or_branch_or_tag gom_pinned = "c") /\
  (options gom_tag_branch !! "commit" = None /\
   options gom_tag_branch !! "tag" = Some (VString "t") /\
   commit_or_branch_or_tag gom_tag_branch = "t") /\
  (options gom_branch !! "commit" = None /\
   options gom_branch !! "tag" = None /\
   options gom_branch !! "branch" = Some (VString "b") /\
   commit_or_branch_or_tag gom_branch = "b") /\
  (options gom_plain !! "commit" = None /\
   options gom_plain !! "tag" = None /\
   options gom_plain !! "branch" = None /\
   Gom_Checkout E_ok gom_plain w_abc = Done None w_abc).
Proof.
  split; [|split; [|split]].
  - split; [run_program|].
    apply (proj1 (selector_precedence E_ok gom_pinned)). run_program.
  - split; [run_program|]. split; [run_program|].
    apply (proj1 (proj2 (selector_precedence E_ok gom_tag_branch)));
      run_program.
  - split; [run_program|]. split; [run_program|]. split; [run_program|].
    apply (proj1 (proj2 (proj2 (selector_precedence E_ok gom_branch))));
      run_program.
  - split; [run_program|]. split; [run_program|]. split; [run_program|].
    apply (proj2 (proj2 (proj2 (selector_precedence E_ok gom_plain))));
      run_program.
Defined.

Lemma blank_option_witness :
  options gom_blank_commit !! "branch" = Some (VString "b") /\
  options gom_blank_commit !! "commit" = Some (VBool true) /\
  (blank (options gom_blank_commit) "commit" \/
   (options gom_blank_commit !! "commit" = None /\
    blank (options gom_blank_commit) "tag")) /\
  commit_or_branch_or_tag gom_blank_commit = "" /\
  forall w, Gom_Checkout E_ok gom_blank_commit w = Done None w.
Proof.
  assert (H : blank (options gom_blank_commit) "commit" \/
              (options gom_blank_commit !! "commit" = None /\
               blank (options gom_blank_commit) "tag")).
  { left. split; [exists (VBool true); run_program | run_program]. }
  split; [run_program|]. split; [run_program|]. split; [exact H|].
  exact (blank_option_discards_selection E_ok gom_blank_commit H).
Defined.

(** ** The fetch engine *)

(** C2, on the program. The directory of a private dependency exists in the
    workspace, and [Clone] does not pull it: [os.Stat] returns no error, the
    test [err != nil] fails, and the only process started is the default
    fetch. Only an error of [os.Stat] for which [os.IsExist] holds leads to
    the pull, and the command of the pull has a comma after the working
    tree. *)
Lemma private_existing_not_pulled :
  is_dir w_fetched "/w/_vendor/src/github.com/org/proj" = true /\
  Gom_Clone E_ok gom_private [] w_fetched =
    Done None
      (mkWorld "/w" tree_fetched []
         [EvPrint ("downloading github.com/org/proj" +:+ newline);
          EvRun "/w" ["go"; "get"; "-d"; "github.com/org/proj"]]) /\
  trace (world_of (Gom_pullPrivate E_ok gom_private "/d" w_fetched)) =
    [EvPrint ("fetching private repo github.com/org/proj" +:+ newline);
     EvRun "/w" ["git"; "--work-tree=/d,"; "--git-dir=/d/.git"; "pull"; "origin"]].
Proof. split; [run_program|]. split; run_program. Qed.

Lemma clonePrivate_short_name_witness :
  filepath_Abs E_ok (vendorFolder E_ok) w_abc = Done (inl "/w/_vendor") w_abc /\
  getFork gom_private_short = Some "host/repo" /\
  string_at (options gom_private_short) "command" = None /\
  string_at (options gom_private_short) "private" = Some "true" /\
  boolString_at (strings_ToLower "true") = true /\
  https_option gom_private_short = false /\
  os_Stat E_ok (filepath_Join ["/w/_vendor"; "src"; "host/repo"]) w_abc
    = Done (inr (PathError "stat" "/w/_vendor/src/host/repo" ENOENT)) w_abc /\
  os_IsExist (PathError "stat" "/w/_vendor/src/host/repo" ENOENT) = false /\
  (length (strings_Split (name gom_private_short) "/") < 3)%nat /\
  Gom_Clone E_ok gom_private_short [] w_abc =
    Panic "index out of range"
      (log (EvPrint ("cloning private " +:+ "host/repo" +:+ newline)) w_abc).
Proof.
  assert (Hshort : (length (strings_Split (name gom_private_short) "/") < 3)%nat)
    by (vm_compute; lia).
  repeat (split; [first [run_program | exact Hshort]|]).
  apply (clonePrivate_short_name_panics E_ok gom_private_short [] w_abc
           "/w/_vendor" "host/repo" "true"
           (PathError "stat" "/w/_vendor/src/host/repo" ENOENT));
    first [run_program | exact Hshort].
Defined.



(** ** The move from the fork to the target *)

Lemma fork_relocation_witness :
  let w' := world_of (Gom_Clone E_ok gom_fork [] w_fetched) in
  filepath_Abs E_ok (vendorFolder E_ok) w_fetched
    = Done (inl "/w/_vendor") w_fetched /\
  has (CMap (options gom_fork)) "fork" = true /\
  getFork gom_fork = Some "me/repo" /\
  Gom_Clone E_ok gom_fork [] w_fetched = Done None w' /\
  fs w_fetched ["w"; "_vendor"; "src"; "me"; "repo"; "README"]
    = Some (File "fork") /\
  fs w' ["w"; "_vendor"; "src"; "me"; "repo"] = None /\
  fs w' ["w"; "_vendor"; "src"; "me"; "repo"; "README"] = None /\
  fs w' ["w"; "_vendor"; "src"; "org"; "repo"; "README"] = Some (File "fork").
Proof.
  intros w'.
  assert (Habs : filepath_Abs E_ok (vendorFolder E_ok) w_fetched
                 = Done (inl "/w/_vendor") w_fetched) by run_program.
  assert (Hhas : has (CMap (options gom_fork)) "fork" = true) by run_program.
  assert (Hfork : getFork gom_fork = Some "me/repo") by run_program.
  assert (Hdone : Gom_Clone E_ok gom_fork [] w_fetched = Done None w')
    by run_program.
  destruct (fork_relocation E_ok gom_fork [] w_fetched w' "/w/_vendor"
              "me/repo" Habs Hhas Hfork Hdone) as (_ & Hgone & Hkept).
  split; [exact Habs|]. split; [exact Hhas|]. split; [exact Hfork|].
  split; [exact Hdone|]. split; [run_program|].
  split; [apply Hgone; run_program|].
  split; [apply Hgone; run_program|].
  exact (Hkept eq_refl eq_refl ["README"] (File "fork") eq_refl).
Defined.

(** A dependency whose fork is the dependency itself: the copy is onto the
    same directory and the removal takes what was fetched. And a fork whose
    directory lies inside the one of the target: what the copy puts where
    the fork directory is goes with the removal. *)
Lemma self_fork_counterexample :
  (let w0 := world_of (Clone_fetched E_ok gom_self_fork [] "/w/_vendor"
                         "org/repo" w_fetched) in
   let w' := world_of (Gom_Clone E_ok gom_self_fork [] w_fetched) in
   has (CMap (options gom_self_fork)) "fork" = true /\
   getFork gom_self_fork = Some "org/repo" /\
   getTarget gom_self_fork = "org/repo" /\
   Gom_Clone E_ok gom_self_fork [] w_fetched = Done None w' /\
   fs w0 (["w"; "_vendor"; "src"; "org"; "repo"] ++ ["README"])
     = Some (File "upstream") /\
   fs w' (["w"; "_vendor"; "src"; "org"; "repo"] ++ ["README"]) = None) /\
  (let w0 := world_of (Clone_fetched E_ok gom_nested_fork [] "/w/_vendor"
                         "org/repo/sub" w_nested) in
   let w' := world_of (Gom_Clone E_ok gom_nested_fork [] w_nested) in
   has (CMap (options gom_nested_fork)) "fork" = true /\
   getFork gom_nested_fork = Some "org/repo/sub" /\
   getTarget gom_nested_fork = "org/repo" /\
   Gom_Clone E_ok gom_nested_fork [] w_nested = Done None w' /\
   fs w0 (["w"; "_vendor"; "src"; "org"; "repo"; "sub"] ++ ["sub"; "README"])
     = Some (File "fork") /\
   fs w' (["w"; "_vendor"; "src"; "org"; "repo"] ++ ["sub"; "README"]) = None).
Proof.
  split; cbv zeta; repeat (split; [run_program|]); run_program.
Qed.

(** ** The revision pinner *)

(** C5, on the program. A dependency with a [target] option is fetched from
    its fork and moved to the directory of the target, which then holds the
    metadata of git; the pinner walks the name of the dependency instead,
    finds nothing, prints the warning and returns the error of the
    unsupported control system: the repository in the target directory is
    not pinned to the tag. *)
Lemma retargeted_dependency_not_pinned :
  let w1 := world_of (Gom_Clone E_ok gom_fork_target [] w_fg) in
  Gom_Clone E_ok gom_fork_target [] w_fg = Done None w1 /\
  getFork gom_fork_target = Some "f/g" /\
  getTarget gom_fork_target = "x/y" /\
  name gom_fork_target = "a/b/c" /\
  commit_or_branch_or_tag gom_fork_target = "v1.0" /\
  is_dir w1 "/w/_vendor/src/f/g" = false /\
  is_dir w1 "/w/_vendor/src/x/y/.git" = true /\
  marker E_ok w1 (filepath_Join ["/w/_vendor"; "src"; "x/y"]) = Some git /\
  first_marker E_ok w1
    (walk_prefixes (filepath_Join ["/w/_vendor"; "src"])
       (strings_Split "a/b/c" "/")) = None /\
  Gom_Checkout E_ok gom_fork_target w1 =
    Done (Some unsupported_vcs) (log (warning gom_fork_target) w1) /\
  Gom_Checkout E_ok gom_fork_target w1 <>
    vcs_Sync E_ok git (filepath_Join ["/w/_vendor"; "src"; "x/y"]) "v1.0" w1.
Proof.
  cbv zeta. repeat (split; [run_program|]).
  vm_compute. discriminate.
Qed.

Lemma pinner_walk_witness :
  commit_or_branch_or_tag gom_tagged <> "" /\
  filepath_Abs E_ok (vendorFolder E_ok) w_abc = Done (inl "/w/_vendor") w_abc /\
  Gom_Checkout E_ok gom_tagged w_abc =
    vcs_Sync E_ok git "/w/_vendor/src/a/b/c" "v1.0" w_abc.
Proof.
  assert (Hsel : commit_or_branch_or_tag gom_tagged <> "")
    by (vm_compute; discriminate).
  assert (Habs : filepath_Abs E_ok (vendorFolder E_ok) w_abc
                 = Done (inl "/w/_vendor") w_abc) by run_program.
  split; [exact Hsel|]. split; [exact Habs|].
  exact (pinner_walk E_ok gom_tagged w_abc "/w/_vendor" Hsel Habs).
Defined.

(** ** The orchestrator *)

Lemma filter_witness :
  (options gom_plain !! "group" = None /\ options gom_plain !! "goos" = None /\
   keep E_production gom_plain = true) /\
  (options gom_test_only !! "group" = Some (VString "test") /\
   matchEnv E_production (VString "test") = false /\
   keep E_production gom_test_only = false) /\
  filter_goms E_production [gom_plain; gom_test_only; gom_tagged]
    = [gom_plain; gom_tagged].
Proof.
  split; [|split].
  - split; [run_program|]. split; [run_program|].
    apply (proj1 (proj2 (filter_is_a_predicate E_production))); run_program.
  - split; [run_program|]. split; [run_program|].
    apply (proj1 (proj2 (proj2 (filter_is_a_predicate E_production)))
             gom_test_only (VString "test")); run_program.
  - rewrite (proj1 (filter_is_a_predicate E_production)). run_program.
Defined.

(** ** Where the pinner looks *)


Lemma repository_is_pinned_witness :
  commit_or_branch_or_tag gom_tagged <> "" /\
  filepath_Abs E_ok (vendorFolder E_ok) w_abc = Done (inl "/w/_vendor") w_abc /\
  filepath_IsAbs "/w/_vendor" = true /\
  marker E_ok w_abc (filepath_Join ["/w/_vendor"; "src"; name gom_tagged])
    <> None /\
  exists vcs,
    (vcs = git \/ vcs = hg \/ vcs = bzr) /\
    Gom_Checkout E_ok gom_tagged w_abc =
      vcs_Sync E_ok vcs (filepath_Join ["/w/_vendor"; "src"; name gom_tagged])
        (commit_or_branch_or_tag gom_tagged) w_abc.
Proof.
  assert (Hsel : commit_or_branch_or_tag gom_tagged <> "")
    by (vm_compute; discriminate).
  assert (Habs : filepath_Abs E_ok (vendorFolder E_ok) w_abc
                 = Done (inl "/w/_vendor") w_abc) by run_program.
  assert (Hm : marker E_ok w_abc
                 (filepath_Join ["/w/_vendor"; "src"; name gom_tagged]) <> None)
    by (vm_compute; discriminate).
  split; [exact Hsel|]. split; [exact Habs|]. split; [reflexivity|].
  split; [exact Hm|].
  exact (repository_is_pinned E_ok gom_tagged w_abc "/w/_vendor"
           Hsel Habs eq_refl Hm).
Defined.

Lemma walk_stays_in_workspace_witness :
  filepath_IsAbs "/w/_vendor" = true /\
  Forall (fun elem => elem <> "..") (strings_Split "a//b/./c" slash) /\
  Forall (fun p => under (clean_elems (filepath_Join ["/w/_vendor"; "src"]))
                     (clean_elems p) = true)
    (walk_prefixes (filepath_Join ["/w/_vendor"; "src"])
       (strings_Split "a//b/./c" slash)).
Proof.
  assert (Hdots : Forall (fun elem => elem <> "..")
                    (strings_Split "a//b/./c" slash)).
  { vm_compute. repeat constructor; discriminate. }
  split; [reflexivity|]. split; [exact Hdots|].
  exact (walk_stays_in_workspace "/w/_vendor" "a//b/./c" eq_refl Hdots).
Defined.

(** With [..] in the name the pinner looks outside the workspace. *)
Example walk_leaves_workspace :
  walk_prefixes (filepath_Join ["/w/_vendor"; "src"])
    (strings_Split "../../x" slash)
    = ["/w/_vendor"; "/w"; "/w/x"].
Proof. run_program. Qed.

(** ** Options *)

Lemma fetched_identity_witness :
  filepath_Abs E_ok (vendorFolder E_ok) w_abc = Done (inl "/w/_vendor") w_abc /\
  getFork gom_fork = Some "me/repo" /\
  getFork gom_retargeted = Some "x/y" /\
  getFork gom_tagged = Some "a/b/c" /\
  Gom_Clone E_ok gom_bad_fork [] w_abc = Panic "interface conversion" w_abc.
Proof.
  assert (Habs : filepath_Abs E_ok (vendorFolder E_ok) w_abc
                 = Done (inl "/w/_vendor") w_abc) by run_program.
  split; [exact Habs|].
  split; [apply (proj1 (fetched_identity E_ok gom_fork [] w_abc _ Habs));
          run_program|].
  split; [apply (proj1 (proj2 (fetched_identity E_ok gom_retargeted [] w_abc _
                                 Habs))); run_program|].
  split; [apply (proj1 (proj2 (proj2 (fetched_identity E_ok gom_tagged [] w_abc
                                        _ Habs)))); run_program|].
  apply (proj2 (proj2 (proj2 (fetched_identity E_ok gom_bad_fork [] w_abc _
                                Habs))) (VBool true));
    [run_program|discriminate].
Defined.

Lemma private_not_truthy_witness :
  filepath_Abs E_ok (vendorFolder E_ok) w_abc = Done (inl "/w/_vendor") w_abc /\
  getFork gom_private_no = Some "github.com/org/proj" /\
  string_at (options gom_private_no) "command" = None /\
  string_at (options gom_private_no) "private" = Some "No" /\
  ~ In (strings_ToLower "No") truthy /\
  Gom_Clone E_ok gom_private_no [] w_abc =
    Clone_default E_ok gom_private_no [] "/w/_vendor" "github.com/org/proj" w_abc.
Proof.
  assert (Hno : ~ In (strings_ToLower "No") truthy).
  { vm_compute. intuition discriminate. }
  split; [run_program|]. split; [run_program|]. split; [run_program|].
  split; [run_program|]. split; [exact Hno|].
  apply (private_not_truthy_is_public E_ok gom_private_no [] w_abc
           "/w/_vendor" "github.com/org/proj" "No");
    first [run_program | exact Hno].
Defined.

(** ** Commands in a directory *)

Lemma vcsExec_missing_directory_witness :
  lookup_path w_abc "/w/_vendor/src/x/y" <> Some Dir /\
  exists err,
    vcsExec E_ok "/w/_vendor/src/x/y" ["go"; "install"] w_abc
      = Done (Some err) w_abc.
Proof.
  assert (H : lookup_path w_abc "/w/_vendor/src/x/y" <> Some Dir)
    by (vm_compute; discriminate).
  split; [exact H|].
  exact (vcsExec_missing_directory E_ok "/w/_vendor/src/x/y"
           ["go"; "install"] w_abc H).
Defined.

Lemma vcsExec_returns_command_error_witness :
  os_Getwd E_fail w_proj = Done (inl "/w/proj") w_proj /\
  os_Chdir E_fail "/w/_vendor/src/a/b/c" w_proj
    = Done None (set_cwd "/w/_vendor/src/a/b/c" w_proj) /\
  ["go"; "install"] <> [] /\
  exists w',
    vcsExec E_fail "/w/_vendor/src/a/b/c" ["go"; "install"] w_proj
      = Done (snd (process E_fail ["go"; "install"]
                     (set_cwd "/w/_vendor/src/a/b/c" w_proj))) w' /\
    trace w' = trace w_proj
                 ++ [EvRun (cwd (set_cwd "/w/_vendor/src/a/b/c" w_proj))
                       ["go"; "install"]].
Proof.
  assert (Hwd : os_Getwd E_fail w_proj = Done (inl "/w/proj") w_proj)
    by run_program.
  assert (Hcd : os_Chdir E_fail "/w/_vendor/src/a/b/c" w_proj
                = Done None (set_cwd "/w/_vendor/src/a/b/c" w_proj))
    by run_program.
  assert (Hargs : ["go"; "install"] <> []) by discriminate.
  split; [exact Hwd|]. split; [exact Hcd|]. split; [exact Hargs|].
  exact (vcsExec_returns_command_error E_fail "/w/_vendor/src/a/b/c"
           ["go"; "install"] w_proj "/w/proj" _ Hwd Hcd Hargs).
Defined.

Lemma Sync_success_witness :
  let w' := world_of (vcs_Sync E_fetch git "/w/_vendor/src/a/b/c" "v1.0" w_abc) in
  filepath_IsAbs "/w/_vendor/src/a/b/c" = true /\
  vcs_Sync E_fetch git "/w/_vendor/src/a/b/c" "v1.0" w_abc = Done None w' /\
  exists w1,
    cwd w1 = "/w/_vendor/src/a/b/c" /\
    snd (process E_fetch (checkout git ++ ["v1.0"]) w1) = None /\
    fs w' = fst (process E_fetch (checkout git ++ ["v1.0"]) w1) /\
    trace w' = trace w1 ++ [EvRun "/w/_vendor/src/a/b/c"
                              (checkout git ++ ["v1.0"])].
Proof.
  intros w'.
  assert (H : vcs_Sync E_fetch git "/w/_vendor/src/a/b/c" "v1.0" w_abc
              = Done None w') by run_program.
  split; [reflexivity|]. split; [exact H|].
  exact (Sync_success_ran_checkout E_fetch git "/w/_vendor/src/a/b/c" "v1.0"
           w_abc w' eq_refl H).
Defined.

Lemma Sync_processes_witness :
  vcs_Checkout E_ok git "/w/_vendor/src/a/b/c" "v1.0" w_abc
    = Done None (world_of (vcs_Checkout E_ok git "/w/_vendor/src/a/b/c" "v1.0"
                             w_abc)) /\
  runs (world_of (vcs_Sync E_ok git "/w/_vendor/src/a/b/c" "v1.0" w_abc))
    = 1 + runs w_abc /\
  runs (world_of (vcs_Sync E_fetch git "/w/_vendor/src/a/b/c" "v1.0" w_abc))
    <= 3 + runs w_abc.
Proof.
  assert (H : vcs_Checkout E_ok git "/w/_vendor/src/a/b/c" "v1.0" w_abc
              = Done None (world_of (vcs_Checkout E_ok git
                                       "/w/_vendor/src/a/b/c" "v1.0" w_abc)))
    by run_program.
  split; [exact H|]. split.
  - exact (proj2 (Sync_at_most_three_processes E_ok git "/w/_vendor/src/a/b/c"
                    "v1.0" w_abc) _ H).
  - exact (proj1 (Sync_at_most_three_processes E_fetch git
                    "/w/_vendor/src/a/b/c" "v1.0" w_abc)).
Defined.

Lemma pin_and_build_by_name_witness :
  name gom_tagged = name gom_retargeted /\
  commit_or_branch_or_tag gom_tagged = commit_or_branch_or_tag gom_retargeted /\
  getTarget gom_tagged <> getTarget gom_retargeted /\
  Gom_Checkout E_ok gom_tagged w_abc = Gom_Checkout E_ok gom_retargeted w_abc /\
  Gom_Build E_ok gom_tagged [] w_abc = Gom_Build E_ok gom_retargeted [] w_abc.
Proof.
  split; [reflexivity|]. split; [run_program|].
  split; [vm_compute; discriminate|].
  apply (pin_and_build_by_name E_ok gom_tagged gom_retargeted [] w_abc);
    [reflexivity|run_program].
Defined.

Lemma Build_runs_go_install_witness :
  filepath_Abs E_ok (vendorFolder E_ok) w_abc = Done (inl "/w/_vendor") w_abc /\
  let target := filepath_Join ["/w/_vendor"; "src"; name gom_tagged] in
  let w' := world_of (Gom_Build E_ok gom_tagged ["-v"] w_abc) in
  (trace w' = trace w_abc \/
   trace w' = trace w_abc
                ++ [EvRun (resolve w_abc target) ["go"; "install"; "-v"]]).
Proof.
  assert (Habs : filepath_Abs E_ok (vendorFolder E_ok) w_abc
                 = Done (inl "/w/_vendor") w_abc) by run_program.
  split; [exact Habs|].
  exact (proj1 (Build_runs_go_install E_ok gom_tagged ["-v"] w_abc) _ Habs).
Defined.

(** ** Private repositories and commands *)

Lemma pullPrivate_argv_witness :
  contains " " "/w/_vendor/src/github.com/org/proj" = false /\
  Gom_pullPrivate E_ok gom_private "/w/_vendor/src/github.com/org/proj" w_abc =
    run E_ok ["git"; "--work-tree=/w/_vendor/src/github.com/org/proj,";
              "--git-dir=/w/_vendor/src/github.com/org/proj/.git";
              "pull"; "origin"]
      (log (EvPrint ("fetching private repo github.com/org/proj" +:+ newline))
         w_abc).
Proof.
  split; [run_program|].
  exact (pullPrivate_argv E_ok gom_private
           "/w/_vendor/src/github.com/org/proj" w_abc eq_refl).
Defined.

Lemma private_clone_witness :
  filepath_Abs E_ok (vendorFolder E_ok) w_abc = Done (inl "/w/_vendor") w_abc /\
  getFork gom_private = Some "github.com/org/proj" /\
  string_at (options gom_private) "command" = None /\
  string_at (options gom_private) "private" = Some "true" /\
  In (strings_ToLower "true") truthy /\
  os_Stat E_ok (filepath_Join ["/w/_vendor"; "src"; "github.com/org/proj"]) w_abc
    = Done (inr (PathError "stat" "/w/_vendor/src/github.com/org/proj" ENOENT))
        w_abc /\
  privateUrl gom_private (https_option gom_private)
    = Some "git@github.com:org/proj" /\
  trace (world_of (Gom_Clone E_ok gom_private [] w_abc)) =
    [EvPrint ("cloning private github.com/org/proj" +:+ newline);
     EvPrint ("fetching private repo github.com/org/proj" +:+ newline);
     EvRun "/w" ["git"; "clone"; "git@github.com:org/proj";
                 "/w/_vendor/src/github.com/org/proj"];
     EvPrint ("downloading github.com/org/proj" +:+ newline);
     EvRun "/w" ["go"; "get"; "-d"; "github.com/org/proj"]].
Proof.
  assert (Htrue : In (strings_ToLower "true") truthy).
  { vm_compute. auto. }
  split; [run_program|]. split; [run_program|]. split; [run_program|].
  split; [run_program|]. split; [exact Htrue|]. split; [run_program|].
  split; [run_program|].
  rewrite (proj1 (private_clone E_ok gom_private [] w_abc "/w/_vendor"
                    "github.com/org/proj" "true" "git@github.com:org/proj"
                    (PathError "stat" "/w/_vendor/src/github.com/org/proj" ENOENT)
                    eq_refl eq_refl eq_refl eq_refl Htrue eq_refl eq_refl
                    eq_refl)).
  run_program.
Defined.

Lemma command_is_printed_witness :
  string_at (options gom_command_tab) "command"
    = Some ("make" +:+ tab +:+ "fetch") /\
  exists w1,
    Clone_custom E_ok gom_command_tab "/w/_vendor" "x/y" w_abc
      = run E_ok (strings_Split ("make" +:+ tab +:+ "fetch") " "
                    ++ [filepath_Join ["/w/_vendor"; "src"; "x/y"]]) w1 /\
    trace w1 = trace w_abc ++
      [EvPrint ("fetching " +:+ "x/y" +:+ " (" +:+ "["
                  +:+ ("make" +:+ tab +:+ "fetch") +:+ " "
                  +:+ filepath_Join ["/w/_vendor"; "src"; "x/y"] +:+ "]"
                  +:+ ")" +:+ newline)].
Proof.
  split; [run_program|].
  exact (command_is_printed_as_written E_ok gom_command_tab "/w/_vendor" "x/y"
           ("make" +:+ tab +:+ "fetch") w_abc eq_refl).
Defined.

(** ** The phases, the setup and the move *)

Lemma phases_stop_witness :
  let w2 := world_of (Gom_Clone E_fail gom_plain [] w_abc) in
  for_each (fun gom => Gom_Clone E_fail gom []) [] w_abc = Done None w_abc /\
  Gom_Clone E_fail gom_plain [] w_abc = Done (Some exit_status_1) w2 /\
  phases E_fail [] ([] ++ gom_plain :: [gom_tagged]) w_abc
    = Done (Some exit_status_1) w2 /\
  runs w2 = 1.
Proof.
  intros w2.
  assert (Hg : Gom_Clone E_fail gom_plain [] w_abc
               = Done (Some exit_status_1) w2) by run_program.
  split; [reflexivity|]. split; [exact Hg|]. split; [|run_program].
  exact (proj1 (phases_stop_at_first_error E_fail [] [] [gom_tagged] gom_plain
                  exit_status_1) w_abc w_abc w2 eq_refl Hg).
Defined.

Lemma setup_prepares_workspace_witness :
  let w1 := world_of (setup E_ok w_abc) in
  setup E_ok w_abc = Done (inl []) w1 /\
  exists vendor,
    parseGomfile E_ok "Gomfile" w_abc = inl [] /\
    filepath_Abs E_ok (vendorFolder E_ok) w_abc = Done (inl vendor) w_abc /\
    environ w1 = ("GOPATH", vendor) :: environ w_abc /\
    lookup_path w1 vendor <> None /\
    cwd w1 = cwd w_abc /\ trace w1 = trace w_abc.
Proof.
  intros w1.
  assert (H : setup E_ok w_abc = Done (inl []) w1) by run_program.
  split; [exact H|].
  exact (setup_prepares_workspace E_ok w_abc w1 [] H).
Defined.

Lemma move_keeps_the_tree_witness :
  let w' := world_of (Clone_fork E_keep gom_fork "/w/_vendor" "me/repo" None
                        w_fetched) in
  has (CMap (options gom_fork)) "fork" = true /\
  getFork gom_fork = Some "me/repo" /\
  Clone_fork E_keep gom_fork "/w/_vendor" "me/repo" None w_fetched
    = Done (Some (PathError "unlinkat" "/w/_vendor/src/me/repo" EACCES)) w' /\
  fs w' ["w"; "_vendor"; "src"; "org"; "repo"; "README"] = Some (File "fork") /\
  fs w' ["w"; "_vendor"; "src"; "me"; "repo"; "README"] = Some (File "fork").
Proof.
  intros w'.
  assert (Hhas : has (CMap (options gom_fork)) "fork" = true) by run_program.
  assert (Hfork : getFork gom_fork = Some "me/repo") by run_program.
  assert (H : Clone_fork E_keep gom_fork "/w/_vendor" "me/repo" None w_fetched
              = Done (Some (PathError "unlinkat" "/w/_vendor/src/me/repo" EACCES))
                  w') by run_program.
  split; [exact Hhas|]. split; [exact Hfork|]. split; [exact H|].
  destruct (move_keeps_the_tree E_keep gom_fork "/w/_vendor" "me/repo" "me/repo"
              None _ w_fetched w' Hhas Hfork H eq_refl eq_refl) as [Hd | Hs].
  - split; [exact (Hd ["README"] (File "fork") eq_refl)|run_program].
  - split; [run_program|exact (Hs ["README"] (File "fork") eq_refl)].
Defined.
